(** * praxis-redis: the Redis Stack client wrapper, embedded and verified

    Source files embedded here:
      - [scripts/redis_client.py]: [RedisConfig], [RedisStackClient]
      - [scripts/test_redis_connection.py]: [wait_for_redis]

    Python strings are Rocq strings (one [ascii] per character), Python
    integers are [Z], [os.environ] is a finite map from names to values,
    and an exception is a class together with its message.  Code that can
    raise returns a [res]; code that mutates state threads it explicitly. *)

From Stdlib Require Import ZArith Lia Ascii.
From stdpp Require Import base option list strings pretty gmap fin_maps.

Local Open Scope string_scope.
Local Open Scope Z_scope.

(** ** Python exceptions *)

Module Py.

(** The exception classes the wrapper can see: the builtin ones it raises or
    may meet, and the hierarchy of [redis.exceptions]. *)
Inductive exc_class : Type :=
  | Exception
  | ValueError
  | TypeError
  | AttributeError
  | OSError
  | FileNotFoundError
  | RedisError
  | ConnectionError
  | TimeoutError
  | AuthenticationError
  | BusyLoadingError
  | ResponseError
  | NoPermissionError
  | ReadOnlyError
  | DataError.

#[global] Instance exc_class_eq_dec : EqDecision exc_class.
Proof. solve_decision. Defined.

(** Direct base class ([None] for [Exception], the root used here). *)
Definition base (c : exc_class) : option exc_class :=
  match c with
  | Exception => None
  | ValueError | TypeError | AttributeError | OSError | RedisError => Some Exception
  | FileNotFoundError => Some OSError
  | ConnectionError | TimeoutError | ResponseError | DataError => Some RedisError
  | AuthenticationError | BusyLoadingError => Some ConnectionError
  | NoPermissionError | ReadOnlyError => Some ResponseError
  end.

(** [ancestors n c]: [c] and its bases, following at most [n] links. *)
Fixpoint ancestors (n : nat) (c : exc_class) : list exc_class :=
  match n with
  | O => [c]
  | S n' => c :: match base c with
                 | Some b => ancestors n' b
                 | None => []
                 end
  end.

(** [issubclass c d]: an [except d] clause catches an exception of class [c].
    No chain of bases above is longer than three links. *)
Definition issubclass (c d : exc_class) : bool :=
  bool_decide (d ∈ ancestors 3 c).

Record exc : Type := mk_exc { exc_cls : exc_class; exc_msg : string }.

#[global] Instance exc_eq_dec : EqDecision exc.
Proof. solve_decision. Defined.

(** Outcome of a call: a value, or a raised exception. *)
Inductive res (A : Type) : Type :=
  | Ok (a : A)
  | Raise (e : exc).
Arguments Ok {A} a.
Arguments Raise {A} e.

Definition is_raise {A} (r : res A) : bool :=
  match r with Ok _ => false | Raise _ => true end.

(** Truthiness of the optional values tested with [or], [if] and [not]. *)
Definition truthy_str (s : option string) : bool :=
  match s with
  | None => false
  | Some s' => negb (bool_decide (s' = ""))
  end.

Definition truthy_int (n : option Z) : bool :=
  match n with
  | None => false
  | Some n' => negb (n' =? 0)
  end.

(** ["s" * n]: repetition; a count below one gives the empty string. *)
Fixpoint str_repeat (s : string) (n : nat) : string :=
  match n with
  | O => ""
  | S n' => s +:+ str_repeat s n'
  end.

Definition str_mul (s : string) (n : Z) : string := str_repeat s (Z.to_nat n).

(** [len(s)] *)
Definition len (s : string) : Z := Z.of_nat (String.length s).

End Py.
Import Py.

(** ** [RedisConfig] *)

Module Config.

Record RedisConfig : Type := mk_config {
  host : string;
  port : Z;
  password : option string;
}.

#[global] Instance RedisConfig_eq_dec : EqDecision RedisConfig.
Proof. solve_decision. Defined.

(** [os.getenv(name)] and [os.getenv(name, default)] *)
Definition os_getenv (environ : gmap string string) (name : string) : option string :=
  environ !! name.

Definition os_getenv_default (environ : gmap string string) (name default : string) : string :=
  match environ !! name with
  | Some v => v
  | None => default
  end.

(** A settings file as the dotenv reader sees it: its bindings in file
    order, a name without [=] being bound to no value. *)
Inductive fs_entry : Type :=
  | RegularFile (bindings : list (string * option string))
  | Directory.

(** [Path.exists()] *)
Definition path_exists (fs : gmap string fs_entry) (p : string) : bool :=
  bool_decide (is_Some (fs !! p)).

(** The bindings [load_dotenv] reads at a path (none when the path is not a
    regular file), collected into a dictionary: a later binding of a name
    replaces an earlier one. *)
Definition dotenv_bindings (fs : gmap string fs_entry) (p : string)
  : list (string * option string) :=
  match fs !! p with
  | Some (RegularFile bs) => bs
  | _ => []
  end.

Definition dotenv_dict (bs : list (string * option string)) : gmap string (option string) :=
  foldl (fun d kv => <[kv.1 := kv.2]> d) ∅ bs.

(** [load_dotenv(dotenv_path=p)] with its default [override=False]: a name
    already in the environment is skipped, a name bound to no value sets
    nothing. *)
Definition load_dotenv (fs : gmap string fs_entry) (p : string)
    (environ : gmap string string) : gmap string string :=
  environ ∪ omap id (dotenv_dict (dotenv_bindings fs p)).

Definition not_found_hint : string :=
  "Please copy .env.example to .env and set your configuration".

Definition not_found_message (p : string) : string :=
  ".env file not found at " +:+ p +:+ ". " +:+ not_found_hint.

Section WithBuiltins.

(** [int(s)] on a string; [None] stands for [ValueError]. *)
Variable py_int : string → option Z.

(** [Path(__file__).parents[1] / ".env"] *)
Variable default_env_path : string.

Definition int_of_str (s : string) : res Z :=
  match py_int s with
  | Some n => Ok n
  | None => Raise (mk_exc ValueError
              ("invalid literal for int() with base 10: '" +:+ s +:+ "'"))
  end.

(** [RedisConfig.__init__] *)
Definition RedisConfig_init (environ : gmap string string)
    (host_arg : option string) (port_arg : option Z) (password_arg : option string)
  : res RedisConfig :=
  let h := if truthy_str host_arg then default "" host_arg
           else os_getenv_default environ "REDIS_HOST" "localhost" in
  let p := if truthy_int port_arg then Ok (default 0 port_arg)
           else int_of_str (os_getenv_default environ "REDIS_PORT" "6379") in
  let pw := if truthy_str password_arg then password_arg
            else os_getenv environ "REDIS_PASSWORD" in
  match p with
  | Ok n => Ok (mk_config h n pw)
  | Raise e => Raise e
  end.

(** [RedisConfig.from_env]: the outcome and the environment it leaves. *)
Definition from_env (fs : gmap string fs_entry) (environ : gmap string string)
    (env_path : option string) : res RedisConfig * gmap string string :=
  let env_path := match env_path with
                  | None => default_env_path
                  | Some p => p
                  end in
  if negb (path_exists fs env_path) then
    (Raise (mk_exc FileNotFoundError (not_found_message env_path)), environ)
  else
    let environ' := load_dotenv fs env_path environ in
    (RedisConfig_init environ' None None None, environ').

End WithBuiltins.

(** [RedisConfig.get_password_preview] *)
Definition get_password_preview (self : RedisConfig) : string :=
  match password self with
  | None => "None"
  | Some pw =>
      match pw with
      | EmptyString => "None"
      | String c0 _ => String c0 "" +:+ str_mul "*" (len pw - 1)
      end
  end.

(** The precedence as the specification words it: the explicit argument
    when one is given, else the environment variable when set, else the
    default. *)
Definition spec_choice {A} (explicit env : option A) (dflt : A) : A :=
  match explicit, env with
  | Some a, _ => a
  | None, Some e => e
  | None, None => dflt
  end.

(** An explicit argument as the constructor's [or] sees it: one that is
    falsy (an empty string, the port [0]) counts as not given. *)
Definition given_str (a : option string) : option string :=
  if truthy_str a then a else None.

Definition given_int (a : option Z) : option Z :=
  if truthy_int a then a else None.

(** The settings the specification's resolution order yields from the
    arguments as given, the environment and the defaults; [None] when the
    port text chosen is not a number. *)
Definition spec_resolution (py_int : string → option Z) (environ : gmap string string)
    (host_arg : option string) (port_arg : option Z) (password_arg : option string)
  : option RedisConfig :=
  match spec_choice (Some <$> port_arg) (py_int <$> environ !! "REDIS_PORT") (Some 6379) with
  | Some n =>
      Some (mk_config
              (spec_choice host_arg (environ !! "REDIS_HOST") "localhost")
              n
              (spec_choice (Some <$> password_arg) (Some <$> environ !! "REDIS_PASSWORD") None))
  | None => None
  end.

(** Plain decimal numerals, the instance of [int] used to evaluate
    examples: an optional sign followed by one or more digits. *)
Definition digit_of (c : ascii) : option Z :=
  let n := Z.of_N (Ascii.N_of_ascii c) in
  if (48 <=? n) && (n <=? 57) then Some (n - 48) else None.

Fixpoint decimal_acc (acc : Z) (s : string) : option Z :=
  match s with
  | EmptyString => Some acc
  | String c s' =>
      match digit_of c with
      | Some d => decimal_acc (10 * acc + d) s'
      | None => None
      end
  end.

Definition decimal (s : string) : option Z :=
  match s with
  | EmptyString => None
  | String c s' =>
      if bool_decide (c = "-"%char) then
        if bool_decide (s' = "") then None else Z.opp <$> decimal_acc 0 s'
      else if bool_decide (c = "+"%char) then
        if bool_decide (s' = "") then None else decimal_acc 0 s'
      else decimal_acc 0 s
  end.

(** Inputs used to evaluate the constructors. *)
Definition example_environ : gmap string string :=
  <["REDIS_HOST" := "env-host"]> (<["REDIS_PORT" := "6380"]> ∅).

Definition example_fs : gmap string fs_entry :=
  <["/srv/app/.env" :=
      RegularFile [("REDIS_HOST", Some "file-host");
                   ("REDIS_PASSWORD", Some "file-secret");
                   ("REDIS_DEBUG", None)]]> ∅.

End Config.
Import Config.

(** ** The client library seen from the wrapper *)

Module Lib.

(** Python data exchanged with the library: the JSON-shaped values.  A
    finite float is the dyadic rational [mantissa * 2 ^ exponent]. *)
#[warnings="-register-all"]
Inductive pyval : Type :=
  | VNone
  | VBool (b : bool)
  | VInt (n : Z)
  | VFloat (mantissa exponent : Z)
  | VStr (s : string)
  | VList (items : list pyval)
  | VDict (members : list (string * pyval)).

(** Truthiness of a value, as [if v:] tests it. *)
Definition truthy (v : pyval) : bool :=
  match v with
  | VNone => false
  | VBool b => b
  | VInt n => negb (n =? 0)
  | VFloat m _ => negb (m =? 0)
  | VStr s => negb (bool_decide (s = ""))
  | VList l => negb (bool_decide (l = []))
  | VDict d => negb (bool_decide (d = []))
  end.

(** [d.get(k, dflt)] on a dictionary; any other value has no [get]. *)
Fixpoint assoc (k : string) (d : list (string * pyval)) : option pyval :=
  match d with
  | [] => None
  | (k', v) :: d' => if bool_decide (k' = k) then Some v else assoc k d'
  end.

Definition py_get (v : pyval) (k : string) (dflt : pyval) : res pyval :=
  match v with
  | VDict d => Ok (default dflt (assoc k d))
  | _ => Raise (mk_exc AttributeError "object has no attribute 'get'")
  end.

(** The items a [for] over a value visits: the elements of a list, the
    keys of a dictionary, the characters of a string; other values are not
    iterable. *)
Definition py_iter (v : pyval) : res (list pyval) :=
  match v with
  | VList l => Ok l
  | VDict d => Ok ((fun kv => VStr kv.1) <$> d)
  | VStr s => Ok ((fun c => VStr (String c "")) <$> String.list_ascii_of_string s)
  | _ => Raise (mk_exc TypeError "object is not iterable")
  end.

(** [v == s] for a string [s] *)
Definition eq_str (v : pyval) (s : string) : bool :=
  match v with
  | VStr t => bool_decide (t = s)
  | _ => false
  end.

(** Index schema fields and the query object. *)
Inductive field : Type :=
  | TextField (name : string) (weight : option pyval)
  | TagField (name : string)
  | NumericField (name : string).

Inductive IndexType : Type := HASH | JSON.

Record IndexDefinition : Type := mk_definition {
  prefix : list string;
  index_type : IndexType;
}.

Record Query : Type := mk_query {
  query_string : string;
  with_scores : bool;
}.

(** The commands the wrapper sends. *)
Inductive cmd : Type :=
  | Ping
  | Info
  | ModuleList
  | SetKey (key value : string)
  | GetKey (key : string)
  | Delete (keys : list string)
  | FtCreateIndex (index_name : string) (schema : list field) (definition : IndexDefinition)
  | FtDropIndex (index_name : string)
  | HSet (key : string) (mapping : list (string * pyval))
  | FtSearch (index_name : string) (query : Query)
  | JsonSet (key path : string) (value : pyval)
  | JsonGet (key : string) (path : option string).

(** A [redis.Redis] object: its identity and the settings it was built
    with. *)
Record Redis : Type := mk_redis {
  obj_id : nat;
  r_host : string;
  r_port : Z;
  r_password : option string;
  decode_responses : bool;
}.

(** The library over a store state [W]: running a command on a connection
    object gives a value or raises, and may change the store; closing a
    connection does not raise. *)
Class RedisLib (W : Type) : Type := {
  execute : cmd → Redis → W → res pyval * W;
  close_conn : Redis → W → W;
}.

(** The Python heap as far as the wrapper needs it: the identity the next
    constructed object gets, and the store. *)
Record heap (W : Type) : Type := mk_heap {
  next_obj : nat;
  store : W;
}.
Arguments mk_heap {W} _ _.
Arguments next_obj {W} _.
Arguments store {W} _.

End Lib.
Import Lib.

(** ** [RedisStackClient] *)

Module Client.

Record RedisStackClient : Type := mk_client {
  config : RedisConfig;
  _client : option Redis;
}.

Section Facade.

Context {W : Type} `{RedisLib W}.

(** A method runs on the instance and the heap; whatever it has changed
    stays changed when it raises. *)
Definition state : Type := RedisStackClient * heap W.
Definition M (A : Type) : Type := state → res A * state.

Definition ret {A} (a : A) : M A := fun st => (Ok a, st).
Definition raise {A} (e : exc) : M A := fun st => (Raise e, st).
Definition bind {A B} (m : M A) (f : A → M B) : M B := fun st =>
  match m st with
  | (Ok a, st') => f a st'
  | (Raise e, st') => (Raise e, st')
  end.

(** [try: m except cls: handler] *)
Definition try_except {A} (m : M A) (cls : exc_class) (handler : exc → M A) : M A :=
  fun st =>
    match m st with
    | (Ok a, st') => (Ok a, st')
    | (Raise e, st') =>
        if issubclass (exc_cls e) cls then handler e st' else (Raise e, st')
    end.

Notation "'let!' x ':=' m 'in' k" := (bind m (fun x => k))
  (at level 10, x name, m at level 100, k at level 200).

(** [RedisStackClient.__init__] *)
Definition RedisStackClient_init (cfg : RedisConfig) : RedisStackClient :=
  mk_client cfg None.

(** The [client] property: the connection object, built on first use. *)
Definition client : M Redis := fun st =>
  let '(self, hp) := st in
  match _client self with
  | None =>
      let r := mk_redis (next_obj hp) (host (config self)) (port (config self))
                        (password (config self)) true in
      (Ok r, (mk_client (config self) (Some r), mk_heap (S (next_obj hp)) (store hp)))
  | Some r => (Ok r, st)
  end.

(** A library call on a connection object. *)
Definition call (c : cmd) (r : Redis) : M pyval := fun st =>
  let '(self, hp) := st in
  let '(v, w) := execute c r (store hp) in
  (v, (self, mk_heap (next_obj hp) w)).

Definition ping : M pyval :=
  try_except (let! r := client in call Ping r)
             ConnectionError (fun _ => ret (VBool false)).

Definition get_info : M pyval :=
  let! r := client in call Info r.

Definition get_version : M pyval :=
  let! info := get_info in
  match py_get info "redis_version" (VStr "unknown") with
  | Ok v => ret v
  | Raise e => raise e
  end.

Definition get_modules : M pyval :=
  let! r := client in call ModuleList r.

(** [any(mod.get("name") == module_name for mod in modules)] over the
    items visited, stopping at the first match. *)
Fixpoint any_named (module_name : string) (mods : list pyval) : res pyval :=
  match mods with
  | [] => Ok (VBool false)
  | m :: mods' =>
      match py_get m "name" VNone with
      | Ok v => if eq_str v module_name then Ok (VBool true)
                else any_named module_name mods'
      | Raise e => Raise e
      end
  end.

Definition has_module (module_name : string) : M pyval :=
  let! modules := get_modules in
  match py_iter modules with
  | Ok mods =>
      match any_named module_name mods with
      | Ok v => ret v
      | Raise e => raise e
      end
  | Raise e => raise e
  end.

Definition set (key value : string) : M pyval :=
  let! r := client in call (SetKey key value) r.

Definition get (key : string) : M pyval :=
  let! r := client in call (GetKey key) r.

Definition delete (keys : list string) : M pyval :=
  let! r := client in call (Delete keys) r.

Definition create_search_index (index_name prefix : string) (schema : list field)
  : M pyval :=
  let! r := client in
  let! _ := call (FtCreateIndex index_name schema (mk_definition [prefix] HASH)) r in
  ret VNone.

Definition drop_search_index (index_name : string) : M pyval :=
  let! _ := try_except (let! r := client in call (FtDropIndex index_name) r)
                 ResponseError (fun _ => ret VNone) in
  ret VNone.

Definition add_document (key : string) (mapping : list (string * pyval)) : M pyval :=
  let! r := client in call (HSet key mapping) r.

Definition search (index_name query_string : string) : M pyval :=
  let query := mk_query query_string true in
  let! r := client in call (FtSearch index_name query) r.

Definition json_set (key path : string) (value : pyval) : M pyval :=
  let! r := client in call (JsonSet key path value) r.

Definition json_get (key : string) (path : option string) : M pyval :=
  if truthy_str path then
    let! r := client in call (JsonGet key path) r
  else
    let! r := client in call (JsonGet key None) r.

Definition close : M pyval := fun st =>
  let '(self, hp) := st in
  match _client self with
  | Some r =>
      (Ok VNone, (mk_client (config self) None,
                  mk_heap (next_obj hp) (close_conn r (store hp))))
  | None => (Ok VNone, st)
  end.

Definition __enter__ : M RedisStackClient := fun st => (Ok (fst st), st).

Definition __exit__ : M pyval := close.

(** [with client: body]: [__exit__] runs however the body ends; it
    returns [None], so an exception of the body is raised again. *)
Definition with_block {A} (body : M A) : M A := fun st =>
  let '(_, st0) := __enter__ st in
  let '(r, st1) := body st0 in
  match __exit__ st1 with
  | (Ok _, st2) => (r, st2)
  | (Raise e, st2) => (Raise e, st2)
  end.

(** The public operations, as calls a caller can make. *)
Inductive op : Type :=
  | OpPing
  | OpGetInfo
  | OpGetVersion
  | OpGetModules
  | OpHasModule (module_name : string)
  | OpSet (key value : string)
  | OpGet (key : string)
  | OpDelete (keys : list string)
  | OpCreateSearchIndex (index_name prefix : string) (schema : list field)
  | OpDropSearchIndex (index_name : string)
  | OpAddDocument (key : string) (mapping : list (string * pyval))
  | OpSearch (index_name query_string : string)
  | OpJsonSet (key path : string) (value : pyval)
  | OpJsonGet (key : string) (path : option string)
  | OpClose.

Definition run_op (o : op) : M pyval :=
  match o with
  | OpPing => ping
  | OpGetInfo => get_info
  | OpGetVersion => get_version
  | OpGetModules => get_modules
  | OpHasModule n => has_module n
  | OpSet k v => set k v
  | OpGet k => get k
  | OpDelete ks => delete ks
  | OpCreateSearchIndex n p s => create_search_index n p s
  | OpDropSearchIndex n => drop_search_index n
  | OpAddDocument k m => add_document k m
  | OpSearch n q => search n q
  | OpJsonSet k p v => json_set k p v
  | OpJsonGet k p => json_get k p
  | OpClose => close
  end.

(** The library command an operation sends ([close] sends none). *)
Definition command_of (o : op) : option cmd :=
  match o with
  | OpPing => Some Ping
  | OpGetInfo | OpGetVersion => Some Info
  | OpGetModules | OpHasModule _ => Some ModuleList
  | OpSet k v => Some (SetKey k v)
  | OpGet k => Some (GetKey k)
  | OpDelete ks => Some (Delete ks)
  | OpCreateSearchIndex n p s => Some (FtCreateIndex n s (mk_definition [p] HASH))
  | OpDropSearchIndex n => Some (FtDropIndex n)
  | OpAddDocument k m => Some (HSet k m)
  | OpSearch n q => Some (FtSearch n (mk_query q true))
  | OpJsonSet k p v => Some (JsonSet k p v)
  | OpJsonGet k p => Some (JsonGet k (if truthy_str p then p else None))
  | OpClose => None
  end.

(** The body of a managed block: it calls operations, sees how each one
    ends (so it can handle an error), and finishes with a value or with an
    exception of its own. *)
Inductive block : Type :=
  | Return (v : pyval)
  | Throw (e : exc)
  | Call (o : op) (k : res pyval → block).

Fixpoint run_block (b : block) : M pyval :=
  match b with
  | Return v => ret v
  | Throw e => raise e
  | Call o k => fun st => let '(r, st') := run_op o st in run_block (k r) st'
  end.

(** The connection object a [client] access finds or builds in a state. *)
Definition connection (st : state) : Redis :=
  match _client (fst st) with
  | Some r => r
  | None => mk_redis (next_obj (snd st)) (host (config (fst st)))
                     (port (config (fst st))) (password (config (fst st))) true
  end.

(** Sending one command: what every operation but [close] does first. *)
Definition send (c : cmd) : M pyval :=
  let! r := client in call c r.

(** Every connection object the instance holds was built before the next
    one to be built. *)
Definition allocated (st : state) : Prop :=
  ∀ r, _client (fst st) = Some r → (obj_id r < next_obj (snd st))%nat.

End Facade.

End Client.
Import Client.

(** ** What the wrapper expects of the store *)

Module Store.

(** [s.split(sep)] for a one-character separator. *)
Fixpoint split_on (sep : ascii) (s : string) : list string :=
  match s with
  | EmptyString => [""]
  | String c s' =>
      if bool_decide (c = sep) then "" :: split_on sep s'
      else match split_on sep s' with
           | x :: xs => String c x :: xs
           | [] => [String c ""]
           end
  end.

Definition name_char (c : ascii) : bool :=
  let n := Z.of_N (Ascii.N_of_ascii c) in
  ((48 <=? n) && (n <=? 57)) || ((65 <=? n) && (n <=? 90))
  || ((97 <=? n) && (n <=? 122)) || (n =? 95).

(** A path segment: a member name or the wildcard. *)
Definition segment_ok (seg : string) : bool :=
  bool_decide (seg = "*")
  || (negb (bool_decide (seg = "")) && forallb name_char (String.list_ascii_of_string seg)).

(** The nodes one segment selects below a node. *)
Definition select (seg : string) (v : pyval) : list pyval :=
  if bool_decide (seg = "*") then
    match v with
    | VDict d => snd <$> d
    | VList l => l
    | _ => []
    end
  else
    match v with
    | VDict d => match assoc seg d with Some x => [x] | None => [] end
    | _ => []
    end.

(** The nodes a [$]-rooted dotted path ([$], [$.a.b], [$.a.*]) matches in
    a document, in document order; [None] for a path outside this
    fragment. *)
Definition jsonpath (p : string) (doc : pyval) : option (list pyval) :=
  match split_on "." p with
  | root :: segs =>
      if bool_decide (root = "$") && forallb segment_ok segs then
        Some (foldl (fun nodes seg => nodes ≫= select seg) [doc] segs)
      else None
  | [] => None
  end.

(** What a store state holds, as far as the contract speaks of it. *)
Class StoreView (W : Type) : Type := {
  serving : W → bool;
  has_index : W → string → bool;
  json_doc : W → string → option pyval;
}.

(** The behaviour the wrapper relies on, of a store that is reachable and
    serves the search and JSON commands: dropping an index that does not
    exist is answered with a response error and changes nothing, dropping
    one that exists removes it; a document written at the root is the
    document of its key; reading without a path returns the document,
    reading with a [$]-path returns the list of matched nodes. *)
Class StoreContract (W : Type) `{RedisLib W} `{StoreView W} : Prop := {
  drop_missing : ∀ r w name,
    serving w = true →
    has_index w name = false →
    ∃ msg, execute (FtDropIndex name) r w = (Raise (mk_exc ResponseError msg), w);
  drop_existing : ∀ r w name,
    serving w = true →
    has_index w name = true →
    ∃ v w', execute (FtDropIndex name) r w = (Ok v, w')
            ∧ serving w' = true ∧ has_index w' name = false;
  json_set_root : ∀ r w key v,
    serving w = true →
    ∃ w', execute (JsonSet key "$" v) r w = (Ok (VBool true), w')
          ∧ serving w' = true ∧ json_doc w' key = Some v;
  json_get_document : ∀ r w key v,
    serving w = true →
    json_doc w key = Some v →
    execute (JsonGet key None) r w = (Ok v, w);
  json_get_path : ∀ r w key v p nodes,
    serving w = true →
    json_doc w key = Some v →
    jsonpath p v = Some nodes →
    execute (JsonGet key (Some p)) r w = (Ok (VList nodes), w);
}.

(** *** A small in-memory store

    It covers plain keys, hashes, index names and JSON documents written at
    the root; it has no query engine. *)

Inductive entry : Type :=
  | EStr (s : string)
  | EHash (fields : list (string * pyval))
  | EJson (doc : pyval).

Record mem : Type := mk_mem {
  reachable : bool;
  search_loaded : bool;
  keyspace : gmap string entry;
  indexes : gset string;
}.

Definition refused : exc :=
  mk_exc ConnectionError "Error 111 connecting to server. Connection refused.".

Definition unknown_command (name : string) : exc :=
  mk_exc ResponseError ("unknown command '" +:+ name +:+ "'").

Definition wrong_type : exc :=
  mk_exc ResponseError
    "WRONGTYPE Operation against a key holding the wrong kind of value".

Definition with_keyspace (w : mem) (ks : gmap string entry) : mem :=
  mk_mem (reachable w) (search_loaded w) ks (indexes w).

Definition with_indexes (w : mem) (ix : gset string) : mem :=
  mk_mem (reachable w) (search_loaded w) (keyspace w) ix.

Definition module_list (w : mem) : list pyval :=
  (if search_loaded w then [VDict [("name", VStr "search"); ("ver", VInt 20810)]] else [])
  ++ [VDict [("name", VStr "ReJSON"); ("ver", VInt 20609)]].

(** Fields of [new] laid over [old]; the count is of fields not in [old]. *)
Definition hset_fields (old new : list (string * pyval)) : list (string * pyval) :=
  new ++ filter (fun kv => assoc kv.1 new = None) old.

Definition hset_added (old new : list (string * pyval)) : Z :=
  Z.of_nat (length (filter (fun kv => assoc kv.1 old = None) new)).

Definition mem_execute (c : cmd) (r : Redis) (w : mem) : res pyval * mem :=
  if negb (reachable w) then (Raise refused, w) else
  match c with
  | Ping => (Ok (VBool true), w)
  | Info => (Ok (VDict [("redis_version", VStr "7.2.4")]), w)
  | ModuleList => (Ok (VList (module_list w)), w)
  | SetKey k v => (Ok (VBool true), with_keyspace w (<[k := EStr v]> (keyspace w)))
  | GetKey k =>
      match keyspace w !! k with
      | None => (Ok VNone, w)
      | Some (EStr s) => (Ok (VStr s), w)
      | Some _ => (Raise wrong_type, w)
      end
  | Delete ks =>
      match ks with
      | [] => (Raise (mk_exc ResponseError "wrong number of arguments for 'del' command"), w)
      | _ =>
          let hit := filter (fun k => is_Some (keyspace w !! k)) (remove_dups ks) in
          (Ok (VInt (Z.of_nat (length hit))),
           with_keyspace w (foldr base.delete (keyspace w) ks))
      end
  | FtCreateIndex n _ _ =>
      if negb (search_loaded w) then (Raise (unknown_command "FT.CREATE"), w)
      else if bool_decide (n ∈ indexes w)
      then (Raise (mk_exc ResponseError "Index already exists"), w)
      else (Ok (VStr "OK"), with_indexes w ({[n]} ∪ indexes w))
  | FtDropIndex n =>
      if negb (search_loaded w) then (Raise (unknown_command "FT.DROPINDEX"), w)
      else if bool_decide (n ∈ indexes w)
      then (Ok (VStr "OK"), with_indexes w (indexes w ∖ {[n]}))
      else (Raise (mk_exc ResponseError "Unknown Index name"), w)
  | HSet k m =>
      match keyspace w !! k with
      | None => (Ok (VInt (hset_added [] m)),
                 with_keyspace w (<[k := EHash (hset_fields [] m)]> (keyspace w)))
      | Some (EHash old) =>
          (Ok (VInt (hset_added old m)),
           with_keyspace w (<[k := EHash (hset_fields old m)]> (keyspace w)))
      | Some _ => (Raise wrong_type, w)
      end
  | FtSearch _ _ => (Raise (unknown_command "FT.SEARCH"), w)
  | JsonSet k p v =>
      if bool_decide (p = "$")
      then (Ok (VBool true), with_keyspace w (<[k := EJson v]> (keyspace w)))
      else (Raise (mk_exc ResponseError "ERR new objects must be created at the root"), w)
  | JsonGet k p =>
      match keyspace w !! k with
      | None => (Ok VNone, w)
      | Some (EJson doc) =>
          match p with
          | None => (Ok doc, w)
          | Some p' =>
              match jsonpath p' doc with
              | Some nodes => (Ok (VList nodes), w)
              | None => (Raise (mk_exc ResponseError "ERR Path does not exist or is not supported"), w)
              end
          end
      | Some _ => (Raise wrong_type, w)
      end
  end.

#[global] Instance mem_lib : RedisLib mem := {
  execute := mem_execute;
  close_conn := fun _ w => w;
}.

#[global] Instance mem_view : StoreView mem := {
  serving := fun w => reachable w && search_loaded w;
  has_index := fun w n => bool_decide (n ∈ indexes w);
  json_doc := fun w k =>
    match keyspace w !! k with
    | Some (EJson doc) => Some doc
    | _ => None
    end;
}.

(** States used to evaluate the operations. *)
Definition example_config : RedisConfig := mk_config "localhost" 6379 None.

Definition mem_empty : mem := mk_mem true true ∅ ∅.
Definition mem_without_search : mem := mk_mem true false ∅ ∅.
Definition mem_down : mem := mk_mem false true ∅ ∅.

Definition fresh_client (w : mem) : RedisStackClient * heap mem :=
  (mk_client example_config None, mk_heap 0 w).

Definition example_profile : pyval :=
  VDict [("profile", VDict [("age", VInt 30)])].

(** A block that pings and then fails with an error of its own. *)
Definition failing_block : block :=
  Call OpPing (fun _ => Throw (mk_exc ValueError "bad input")).

End Store.
Import Store.

(** ** The diagnostic probe: [wait_for_redis] *)

Module Probe.

(** What a run of the loop does, in order: each [ping] with how it ended,
    each line printed, each fetch of the container logs, each sleep with
    its length in seconds. *)
Inductive event : Type :=
  | EvPing (outcome : res pyval)
  | EvPrint (line : string)
  | EvCheckLogs
  | EvSleep (seconds : Z).

(** [range(n)] *)
Definition range (n : Z) : list Z := Z.of_nat <$> seq 0 (Z.to_nat n).

Section Loop.

Context {W : Type} `{RedisLib W}.

Variable redis_client : Redis.
Variables max_retries delay : Z.

(** The handler of a connection error at one attempt.  The sleep is
    taken to return: [time.sleep] does so for a delay that is not
    negative, and the properties of the loop that reach a sleep are stated
    for such delays. *)
Definition on_connection_error (attempt : Z) (e : exc) : list event :=
  if attempt <? max_retries - 1 then
    [ EvPrint ("Waiting for Redis to be ready... (attempt "
               +:+ pretty (attempt + 1) +:+ "/" +:+ pretty max_retries +:+ ")");
      EvPrint ("Error: " +:+ exc_msg e);
      EvCheckLogs;
      EvSleep delay ]
  else [].

(** The [for] loop over the attempts still to make; the events are those
    from here on. *)
Fixpoint attempts (todo : list Z) (w : W) : res pyval * W * list event :=
  match todo with
  | [] => (Ok (VBool false), w, [])
  | attempt :: todo' =>
      let '(o, w1) := execute Ping redis_client w in
      match o with
      | Ok v =>
          if truthy v then (Ok (VBool true), w1, [EvPing o])
          else
            let '(r, w2, evs) := attempts todo' w1 in
            (r, w2, EvPing o :: evs)
      | Raise e =>
          if issubclass (exc_cls e) ConnectionError then
            let '(r, w2, evs) := attempts todo' w1 in
            (r, w2, EvPing o :: on_connection_error attempt e ++ evs)
          else (Raise e, w1, [EvPing o])
      end
  end.

Definition wait_for_redis (w : W) : res pyval * W * list event :=
  attempts (range max_retries) w.

End Loop.

(** How one ping ended. *)
Definition succeeded (o : res pyval) : bool :=
  match o with
  | Ok v => truthy v
  | Raise _ => false
  end.

Definition connection_failed (o : res pyval) : bool :=
  match o with
  | Ok _ => false
  | Raise e => issubclass (exc_cls e) ConnectionError
  end.

Definition is_ping (ev : event) : bool :=
  match ev with EvPing _ => true | _ => false end.

Definition is_sleep (ev : event) : bool :=
  match ev with EvSleep _ => true | _ => false end.

(** The pings of a run, in order. *)
Definition pings (evs : list event) : list (res pyval) :=
  omap (fun ev => match ev with EvPing o => Some o | _ => None end) evs.

(** The seconds slept in a run, in order. *)
Definition sleeps (evs : list event) : list Z :=
  omap (fun ev => match ev with EvSleep d => Some d | _ => None end) evs.

(** What follows a ping in a run: the handler's events when the ping
    raised a connection error, nothing otherwise. *)
Definition after_ping (max_retries delay attempt : Z) (o : res pyval) : list event :=
  match o with
  | Raise e =>
      if issubclass (exc_cls e) ConnectionError
      then on_connection_error max_retries delay attempt e
      else []
  | Ok _ => []
  end.

(** The run that a sequence of ping outcomes stands for, the first of them
    being the ping of the given attempt. *)
Fixpoint replay (max_retries delay attempt : Z) (os : list (res pyval)) : list event :=
  match os with
  | [] => []
  | o :: os' =>
      EvPing o :: after_ping max_retries delay attempt o
      ++ replay max_retries delay (attempt + 1) os'
  end.

(** A connection whose answers are scripted: each command takes the next
    outcome of the script; once the script is used up the connection is
    refused. *)
#[global] Instance scripted : RedisLib (list (res pyval)) := {
  execute := fun _ _ script =>
    match script with
    | o :: script' => (o, script')
    | [] => (Raise (mk_exc ConnectionError "Connection refused."), [])
    end;
  close_conn := fun _ script => script;
}.

Definition probe_client : Redis := mk_redis 0 "localhost" 6379 None true.

End Probe.
Import Probe.

(** ** How callers use the client *)

Module Usage.

(** A block body that never calls [close]. *)
Inductive closes_nothing : block → Prop :=
  | closes_nothing_return (v : pyval) : closes_nothing (Return v)
  | closes_nothing_throw (e : exc) : closes_nothing (Throw e)
  | closes_nothing_call (o : op) (k : res pyval → block) :
      o ≠ OpClose →
      (∀ r, closes_nothing (k r)) →
      closes_nothing (Call o k).

(** The connection object carries the settings of a configuration, with
    responses decoded. *)
Definition built_from (cfg : RedisConfig) (r : Redis) : Prop :=
  r_host r = host cfg ∧ r_port r = port cfg ∧ r_password r = password cfg
  ∧ decode_responses r = true.

(** The connection object an instance holds, if any, was built from its
    configuration. *)
Definition configured {W : Type} (st : RedisStackClient * heap W) : Prop :=
  ∀ r, _client st.1 = Some r → built_from (config st.1) r.

(** A module entry is a dictionary; its ["name"] is the given one. *)
Definition is_dict (v : pyval) : bool :=
  match v with VDict _ => true | _ => false end.

Definition named (module_name : string) (m : pyval) : bool :=
  match m with
  | VDict d =>
      match Lib.assoc "name" d with
      | Some v => eq_str v module_name
      | None => false
      end
  | _ => false
  end.

(** A block that pings, reads a key and returns what it read. *)
Definition reading_block : block :=
  Call OpPing (fun _ => Call (OpGet "greeting") (fun r =>
    match r with
    | Ok v => Return v
    | Raise e => Throw e
    end)).

End Usage.
Import Usage.

(** ** The probe script: [load_env] and [test_redisjson] *)

Module Script.

(** [load_env]: the exit status when the script stops there, the
    environment it leaves and the lines it prints. *)
Definition load_env (default_env_path : string) (fs : gmap string fs_entry)
    (environ : gmap string string)
  : option Z * gmap string string * list string :=
  let env_path := default_env_path in
  if negb (path_exists fs env_path) then
    (Some 1, environ,
     ["❌ Error: .env file not found at " +:+ env_path;
      "Please copy .env.example to .env and set your configuration"])
  else
    (None, load_dotenv fs env_path environ, []).

(** The document [test_redisjson] stores, also what
    [RedisJSONHelper.create_sample_user] builds. *)
Definition create_sample_user : pyval :=
  VDict [("name", VStr "John Doe");
         ("email", VStr "john@example.com");
         ("profile", VDict [("age", VInt 30);
                            ("interests", VList [VStr "Redis"; VStr "Python"; VStr "AI"])])].

Section Phases.

Context {W : Type} `{RedisLib W}.

(** [str(v)] as an f-string renders a value. *)
Variable py_str : pyval → string.

(** A phase runs on the store and the lines printed so far. *)
Definition P (A : Type) : Type := W * list string → res A * (W * list string).

Definition pure {A} (a : A) : P A := fun s => (Ok a, s).

Definition and_then {A B} (m : P A) (f : A → P B) : P B := fun s =>
  match m s with
  | (Ok a, s') => f a s'
  | (Raise e, s') => (Raise e, s')
  end.

Definition run (c : cmd) (r : Redis) : P pyval := fun s =>
  let '(v, w) := execute c r s.1 in (v, (w, s.2)).

Definition say (line : string) : P pyval := fun s =>
  (Ok VNone, (s.1, (s.2 ++ [line])%list)).

(** [try: m except Exception as e: handler] *)
Definition except_Exception {A} (m : P A) (handler : exc → P A) : P A := fun s =>
  match m s with
  | (Ok a, s') => (Ok a, s')
  | (Raise e, s') =>
      if issubclass (exc_cls e) Exception then handler e s' else (Raise e, s')
  end.

Notation "'do!' x ':=' m 'in' k" := (and_then m (fun x => k))
  (at level 10, x name, m at level 100, k at level 200).

Definition json_key : string := "user:1".

(** The body of the [try] in [test_redisjson]. *)
Definition test_redisjson_try (redis_client : Redis) : P pyval :=
  do! _ := run (JsonSet json_key "$" create_sample_user) redis_client in
  do! _result := run (JsonGet json_key None) redis_client in
  do! age := run (JsonGet json_key (Some "$.profile.age")) redis_client in
  do! interests := run (JsonGet json_key (Some "$.profile.interests")) redis_client in
  do! _ := say "✅ RedisJSON test successful - stored and retrieved JSON data" in
  do! _ := say ("Retrieved age: " +:+ py_str age) in
  do! _ := say ("Retrieved interests: " +:+ py_str interests) in
  do! _ := run (Delete [json_key]) redis_client in
  pure (VBool true).

Definition test_redisjson (redis_client : Redis) : P pyval :=
  except_Exception (test_redisjson_try redis_client)
    (fun e =>
       do! _ := say ("❌ RedisJSON test failed: " +:+ exc_msg e) in
       pure (VBool false)).

End Phases.

(** Commands sent one after the other on a connection, up to the first
    that raises: the replies, or the exception, and the store then. *)
Fixpoint run_all {W : Type} `{RedisLib W} (r : Redis) (cs : list cmd) (w : W)
  : res (list pyval) * W :=
  match cs with
  | [] => (Ok [], w)
  | c :: cs' =>
      match execute c r w with
      | (Ok v, w1) =>
          match run_all r cs' w1 with
          | (Ok vs, w2) => (Ok (v :: vs), w2)
          | (Raise e, w2) => (Raise e, w2)
          end
      | (Raise e, w1) => (Raise e, w1)
      end
  end.

(** The write and the three reads of [test_redisjson], in order. *)
Definition json_commands : list cmd :=
  [JsonSet json_key "$" create_sample_user;
   JsonGet json_key None;
   JsonGet json_key (Some "$.profile.age");
   JsonGet json_key (Some "$.profile.interests")].

(** A ping after which [wait_for_redis] goes on to the next attempt: it
    raised a connection error, or it returned a falsy value. *)
Definition retried (o : res pyval) : bool :=
  match o with
  | Ok v => negb (truthy v)
  | Raise e => issubclass (exc_cls e) ConnectionError
  end.

(** A rendering of values used to evaluate the script: lists of integers
    in brackets, anything else as a placeholder. *)
Definition show_value (v : pyval) : string :=
  match v with
  | VList [VInt n] => "[" +:+ pretty n +:+ "]"
  | _ => "<value>"
  end.

End Script.
Import Script.

(** ** What a settings file says *)

Module SettingsFile.

(** The value a settings file gives a name: that of the last line that
    binds the name; none when no line binds it, or when that line binds it
    to no value. *)
Definition file_value (bs : list (string * option string)) (name : string)
  : option string :=
  match last (filter (fun kv => kv.1 = name) bs) with
  | Some kv => kv.2
  | None => None
  end.

(** The settings the resolution order yields when no argument is passed,
    from the process environment and the lines of a settings file: the
    environment first, then the file, then the default; [None] when the
    port text so chosen is not a number. *)
Definition resolved_from_file (py_int : string → option Z)
    (environ : gmap string string) (bs : list (string * option string))
  : option RedisConfig :=
  match py_int (spec_choice (environ !! "REDIS_PORT") (file_value bs "REDIS_PORT") "6379") with
  | Some n =>
      Some (mk_config
              (spec_choice (environ !! "REDIS_HOST") (file_value bs "REDIS_HOST") "localhost")
              n
              (spec_choice (Some <$> environ !! "REDIS_PASSWORD")
                           (Some <$> file_value bs "REDIS_PASSWORD") None))
  | None => None
  end.

End SettingsFile.
Import SettingsFile.

(** ** The store's path engine *)

Module Paths.

(** The nodes the store's own JSONPath engine selects in a document
    ([None] for a path it rejects), and how it answers reads: it agrees
    with [jsonpath] on the dotted paths, and a read of a key that holds a
    document, with a path it evaluates, returns the list of the nodes
    selected. *)
Class PathEngine (W : Type) `{RedisLib W} `{StoreView W} : Type := {
  evaluate : string → pyval → option (list pyval);
  evaluate_dotted : ∀ p doc nodes,
    jsonpath p doc = Some nodes → evaluate p doc = Some nodes;
  read_evaluated : ∀ r w key doc p nodes,
    serving w = true →
    json_doc w key = Some doc →
    evaluate p doc = Some nodes →
    execute (JsonGet key (Some p)) r w = (Ok (VList nodes), w);
}.

End Paths.
Import Paths.

(** * Properties of [RedisConfig] *)

Module ConfigFacts.

Lemma str_repeat_char (c : ascii) (n : nat) :
  str_repeat (String c "") n = String.string_of_list_ascii (repeat c n).
Proof.
  induction n as [|n IH]; simpl; [reflexivity|].
  by rewrite IH.
Qed.

Lemma str_mul_pred_len (c : ascii) (rest : string) (star : ascii) :
  str_mul (String star "") (len (String c rest) - 1)
  = String.string_of_list_ascii (repeat star (String.length rest)).
Proof.
  unfold str_mul, len. cbn [String.length].
  replace (Z.to_nat (Z.of_nat (S (String.length rest)) - 1))
    with (String.length rest) by lia.
  apply str_repeat_char.
Qed.

(** C3. With no credential the preview is the literal ["None"]; for a
    credential [c] of length at least one it is the first character of [c]
    followed by [len(c) - 1] asterisks. *)
Theorem get_password_preview_masks (cfg : RedisConfig) :
  (password cfg = None → get_password_preview cfg = "None") ∧
  (∀ c, password cfg = Some c → (1 ≤ String.length c)%nat →
        ∃ first rest,
          c = String first rest ∧
          get_password_preview cfg
          = String first (String.string_of_list_ascii (repeat "*"%char (String.length c - 1)))).
Proof.
  unfold get_password_preview. split.
  - intros ->. reflexivity.
  - intros c -> Hlen. destruct c as [|first rest]; [simpl in Hlen; lia|].
    exists first, rest. split; [reflexivity|].
    rewrite str_mul_pred_len. cbn [String.length String.append].
    replace (S (String.length rest) - 1)%nat with (String.length rest) by lia.
    reflexivity.
Qed.

Lemma get_password_preview_masks_witness :
  get_password_preview (mk_config "localhost" 6379 (Some "secret123")) = "s********"
  ∧ get_password_preview (mk_config "localhost" 6379 None) = "None".
Proof.
  pose proof (get_password_preview_masks (mk_config "localhost" 6379 (Some "secret123")))
    as [_ Hsome].
  pose proof (get_password_preview_masks (mk_config "localhost" 6379 None)) as [Hnone _].
  split.
  - destruct (Hsome "secret123" eq_refl) as (first & rest & Hc & ->).
    + simpl. lia.
    + injection Hc as <- <-. reflexivity.
  - apply Hnone. reflexivity.
Defined.

Section Resolution.

Variable py_int : string → option Z.
Hypothesis py_int_default : py_int "6379" = Some 6379.

Lemma init_raises_value_error environ h p pw e :
  RedisConfig_init py_int environ h p pw = Raise e → exc_cls e = ValueError.
Proof.
  unfold RedisConfig_init, int_of_str.
  destruct (truthy_int p); cbn; [intros; discriminate|].
  destruct (py_int (os_getenv_default _ _ _)); cbn; [intros; discriminate|].
  intros [= <-]. reflexivity.
Qed.

Lemma host_choice environ (h : option string) name dflt :
  (if truthy_str h then default "" h else os_getenv_default environ name dflt)
  = spec_choice (given_str h) (environ !! name) dflt.
Proof.
  unfold given_str, os_getenv_default, spec_choice.
  destruct h as [h|]; cbn [truthy_str]; [|reflexivity].
  destruct (negb _); reflexivity.
Qed.

Lemma password_choice environ (pw : option string) name :
  (if truthy_str pw then pw else os_getenv environ name)
  = spec_choice (Some <$> given_str pw) (Some <$> environ !! name) None.
Proof.
  unfold given_str, os_getenv, spec_choice.
  destruct pw as [pw|]; cbn [truthy_str].
  - destruct (negb _); [reflexivity|]. by destruct (environ !! name).
  - by destruct (environ !! name).
Qed.

Lemma port_choice environ (p : option Z) :
  (if truthy_int p then Ok (default 0 p)
   else int_of_str py_int (os_getenv_default environ "REDIS_PORT" "6379"))
  = match spec_choice (Some <$> given_int p) (py_int <$> environ !! "REDIS_PORT")
            (Some 6379) with
    | Some n => Ok n
    | None => Raise (mk_exc ValueError
                ("invalid literal for int() with base 10: '"
                 +:+ os_getenv_default environ "REDIS_PORT" "6379" +:+ "'"))
    end.
Proof.
  unfold given_int, os_getenv_default, spec_choice, int_of_str.
  destruct p as [n|]; cbn [truthy_int].
  - destruct (negb _); [reflexivity|]. cbn.
    destruct (environ !! "REDIS_PORT") as [s|]; cbn.
    + by destruct (py_int s).
    + by rewrite py_int_default.
  - cbn. destruct (environ !! "REDIS_PORT") as [s|]; cbn.
    + by destruct (py_int s).
    + by rewrite py_int_default.
Qed.

(** C2, as amended.  An explicit argument that is truthy is used;
    otherwise (not passed, or passed as the empty string or as port [0])
    the environment variable is used when set, and otherwise the default
    [localhost], [6379], no credential.  When the port text taken from the
    environment is not a number, construction raises [ValueError]. *)
Theorem init_precedence (environ : gmap string string)
    (h : option string) (p : option Z) (pw : option string) :
  match spec_resolution py_int environ (given_str h) (given_int p) (given_str pw) with
  | Some cfg => RedisConfig_init py_int environ h p pw = Ok cfg
  | None => ∃ e, RedisConfig_init py_int environ h p pw = Raise e
                 ∧ exc_cls e = ValueError
  end.
Proof.
  unfold spec_resolution, RedisConfig_init.
  rewrite host_choice, password_choice, port_choice.
  destruct (spec_choice (Some <$> given_int p) _ _) as [n|]; [reflexivity|].
  eexists. split; reflexivity.
Qed.

End Resolution.

Lemma init_precedence_witness :
  decimal "6379" = Some 6379
  ∧ RedisConfig_init decimal example_environ (Some "param-host") None (Some "")
    = Ok (mk_config "param-host" 6380 None).
Proof.
  split; [reflexivity|].
  exact (init_precedence decimal eq_refl example_environ (Some "param-host") None (Some "")).
Defined.

(** C2, as stated, fails: with [REDIS_HOST=env-host] and [REDIS_PORT=6380]
    in the environment, the explicit arguments [host=""] and [port=0] are
    not used; the constructor takes the environment's values. *)
Lemma init_ignores_falsy_arguments :
  spec_resolution decimal example_environ (Some "") (Some 0) None
  = Some (mk_config "" 0 None)
  ∧ RedisConfig_init decimal example_environ (Some "") (Some 0) None
    = Ok (mk_config "env-host" 6380 None)
  ∧ ¬ (∀ environ h p pw cfg,
         spec_resolution decimal environ h p pw = Some cfg →
         RedisConfig_init decimal environ h p pw = Ok cfg).
Proof.
  split; [reflexivity|]. split; [reflexivity|].
  intros Hclaim.
  specialize (Hclaim example_environ (Some "") (Some 0) None _ eq_refl).
  discriminate Hclaim.
Qed.

Section FromEnv.

Variable py_int : string → option Z.
Variable default_env_path : string.

Lemma load_dotenv_keeps fs p (environ : gmap string string) k v :
  environ !! k = Some v → load_dotenv fs p environ !! k = Some v.
Proof. intros Hk. unfold load_dotenv. by apply lookup_union_Some_l. Qed.

Lemma load_dotenv_adds fs p (environ : gmap string string) k :
  environ !! k = None →
  load_dotenv fs p environ !! k = mjoin (dotenv_dict (dotenv_bindings fs p) !! k).
Proof.
  intros Hk. unfold load_dotenv.
  rewrite lookup_union_r by done. rewrite lookup_omap.
  by destruct (dotenv_dict _ !! k) as [[v|]|].
Qed.

Lemma dotenv_dict_snoc (bs : list (string * option string)) kv :
  dotenv_dict (bs ++ [kv]) = <[kv.1 := kv.2]> (dotenv_dict bs).
Proof. unfold dotenv_dict. by rewrite foldl_app. Qed.

(** The dictionary the reader builds gives each name the value of the last
    line binding it. *)
Lemma dotenv_dict_file_value (bs : list (string * option string)) (k : string) :
  mjoin (dotenv_dict bs !! k) = file_value bs k.
Proof.
  unfold file_value. induction bs as [|kv bs IH] using rev_ind; [reflexivity|].
  rewrite dotenv_dict_snoc, filter_app, filter_cons, filter_nil.
  destruct (decide (kv.1 = k)) as [Hk|Hk].
  - rewrite last_snoc. subst k. by rewrite lookup_insert_eq.
  - rewrite app_nil_r, lookup_insert_ne by done. exact IH.
Qed.

Lemma load_dotenv_regular_file fs p (environ : gmap string string) bs k :
  fs !! p = Some (RegularFile bs) →
  load_dotenv fs p environ !! k
  = match environ !! k with
    | Some v => Some v
    | None => file_value bs k
    end.
Proof.
  intros Hfile. destruct (environ !! k) as [v|] eqn:Hk.
  - by apply load_dotenv_keeps.
  - rewrite (load_dotenv_adds fs p environ k Hk).
    unfold dotenv_bindings. rewrite Hfile. apply dotenv_dict_file_value.
Qed.

Lemma load_dotenv_directory fs p (environ : gmap string string) :
  fs !! p = Some Directory → load_dotenv fs p environ = environ.
Proof.
  intros Hdir. apply map_eq. intros k.
  destruct (environ !! k) as [v|] eqn:Hk.
  - by apply load_dotenv_keeps.
  - rewrite (load_dotenv_adds fs p environ k Hk).
    unfold dotenv_bindings. by rewrite Hdir.
Qed.

(** The constructor called without arguments on the merged environment
    resolves each setting from the environment, then the file, then the
    default. *)
Lemma init_on_merged (environ merged : gmap string string)
    (bs : list (string * option string)) :
  (∀ k, merged !! k = match environ !! k with
                      | Some v => Some v
                      | None => file_value bs k
                      end) →
  match resolved_from_file py_int environ bs with
  | Some cfg => RedisConfig_init py_int merged None None None = Ok cfg
  | None => ∃ e, RedisConfig_init py_int merged None None None = Raise e
                 ∧ exc_cls e = ValueError
  end.
Proof.
  intros Hmerged.
  unfold resolved_from_file, RedisConfig_init, int_of_str, os_getenv_default, os_getenv,
    spec_choice.
  cbn [truthy_str truthy_int]. rewrite !Hmerged.
  destruct (environ !! "REDIS_HOST") as [eh|], (file_value bs "REDIS_HOST") as [fh|],
    (environ !! "REDIS_PORT") as [ep|], (file_value bs "REDIS_PORT") as [fp|],
    (environ !! "REDIS_PASSWORD") as [epw|], (file_value bs "REDIS_PASSWORD") as [fpw|];
    cbn;
    match goal with
    | |- context [py_int ?t] => destruct (py_int t) as [n|]
    end;
    first [reflexivity | eexists; split; reflexivity].
Qed.

(** C8. [from_env] raises [FileNotFoundError] exactly when nothing exists
    at the path given (or at the default path), and the message then ends
    with the remediation hint and the environment is untouched.  When the
    path holds a settings file, every variable already set keeps its
    value, a variable not yet set takes the value of the last line of the
    file that binds it (and stays unset when the file does not give it a
    value), and the settings returned are those of the constructor called
    without arguments on the merged environment: each one from the
    environment, else from the file, else the default.  When the path is a
    directory, the environment is left as it is. *)
Theorem from_env_contract (fs : gmap string fs_entry) (environ : gmap string string)
    (env_path : option string) :
  let p := default default_env_path env_path in
  let r := (from_env py_int default_env_path fs environ env_path).1 in
  let environ' := (from_env py_int default_env_path fs environ env_path).2 in
  ((∃ e, r = Raise e ∧ exc_cls e = FileNotFoundError) ↔ fs !! p = None)
  ∧ (fs !! p = None →
       r = Raise (mk_exc FileNotFoundError
                    (".env file not found at " +:+ p +:+ ". " +:+ not_found_hint))
       ∧ environ' = environ)
  ∧ (∀ bs, fs !! p = Some (RegularFile bs) →
       (∀ k v, environ !! k = Some v → environ' !! k = Some v)
       ∧ (∀ k, environ !! k = None → environ' !! k = file_value bs k)
       ∧ r = RedisConfig_init py_int environ' None None None
       ∧ match resolved_from_file py_int environ bs with
         | Some cfg => r = Ok cfg
         | None => ∃ e, r = Raise e ∧ exc_cls e = ValueError
         end)
  ∧ (fs !! p = Some Directory →
       environ' = environ ∧ r = RedisConfig_init py_int environ None None None).
Proof.
  intros p r environ'. subst r environ'. unfold from_env, path_exists.
  replace (match env_path with Some p0 => p0 | None => default_env_path end)
    with p by (subst p; by destruct env_path).
  case_bool_decide as Hex; cbn [negb fst snd].
  - split; [|split; [|split]].
    + split.
      * intros (e & He & Hcls).
        apply init_raises_value_error in He. congruence.
      * intros Hnone. rewrite Hnone in Hex. by destruct Hex.
    + intros Hnone. rewrite Hnone in Hex. by destruct Hex.
    + intros bs Hfile.
      pose proof (load_dotenv_regular_file fs p environ bs) as Hlookup.
      split; [|split; [|split]].
      * intros k v Hk. by rewrite (Hlookup k Hfile), Hk.
      * intros k Hk. by rewrite (Hlookup k Hfile), Hk.
      * reflexivity.
      * apply init_on_merged. intros k. by apply Hlookup.
    + intros Hdir. by rewrite (load_dotenv_directory fs p environ Hdir).
  - assert (fs !! p = None) as Hnone.
    { destruct (fs !! p) eqn:E; [|reflexivity]. exfalso. apply Hex. by eexists. }
    split; [|split; [|split]].
    + split; [done|]. intros _. eexists. split; reflexivity.
    + intros _. split; reflexivity.
    + intros bs Hfile. congruence.
    + intros Hdir. congruence.
Qed.

End FromEnv.

Lemma from_env_contract_witness :
  from_env decimal "/srv/app/.env" example_fs example_environ (Some "/nonexistent/path/.env")
  = (Raise (mk_exc FileNotFoundError
       ".env file not found at /nonexistent/path/.env. Please copy .env.example to .env and set your configuration"),
     example_environ)
  ∧ (from_env decimal "/srv/app/.env" example_fs example_environ None).1
    = Ok (mk_config "env-host" 6380 (Some "file-secret"))
  ∧ (from_env decimal "/srv/app/.env" example_fs example_environ None).2 !! "REDIS_PASSWORD"
    = Some "file-secret".
Proof.
  pose proof (from_env_contract decimal "/srv/app/.env" example_fs example_environ
                (Some "/nonexistent/path/.env")) as (_ & Habsent & _).
  pose proof (from_env_contract decimal "/srv/app/.env" example_fs example_environ None)
    as (_ & _ & Hpresent & _).
  split; [|split].
  - destruct (Habsent eq_refl) as [Hr Henv].
    rewrite (surjective_pairing (from_env _ _ _ _ _)), Hr, Henv. reflexivity.
  - destruct (Hpresent _ eq_refl) as (_ & _ & _ & Hsettings). exact Hsettings.
  - destruct (Hpresent _ eq_refl) as (_ & Hadds & _). exact (Hadds "REDIS_PASSWORD" eq_refl).
Defined.

End ConfigFacts.

(** * Properties of [RedisStackClient] *)

Module ClientFacts.

Section Generic.

Context {W : Type} `{RedisLib W}.

Implicit Types (st : @state W) (c : cmd) (o : op) (e : exc).

(** The state a [client] access leaves: the connection object is held. *)
Lemma client_spec st :
  client st = (Ok (connection st),
               (mk_client (config st.1) (Some (connection st)),
                mk_heap (if _client st.1 is Some _ then next_obj st.2 else S (next_obj st.2))
                        (store st.2))).
Proof.
  destruct st as [[cfg [r|]] [n w]]; reflexivity.
Qed.

Lemma send_spec c st :
  send c st =
  ((execute c (connection st) (store st.2)).1,
   (mk_client (config st.1) (Some (connection st)),
    mk_heap (if _client st.1 is Some _ then next_obj st.2 else S (next_obj st.2))
            ((execute c (connection st) (store st.2)).2))).
Proof.
  unfold send, bind. rewrite client_spec. unfold call. cbn [store next_obj].
  by destruct (execute c (connection st) (store st.2)) as [[v|e] w].
Qed.

Lemma bind_raise {A B} (m : M A) (k : A → M B) st e st' :
  m st = (Raise e, st') → bind m k st = (Raise e, st').
Proof. intros Hm. unfold bind. by rewrite Hm. Qed.

Lemma try_except_raise {A} (m : M A) cls (handler : exc → M A) st e st' :
  m st = (Raise e, st') →
  try_except m cls handler st
  = if issubclass (exc_cls e) cls then handler e st' else (Raise e, st').
Proof. intros Hm. unfold try_except. by rewrite Hm. Qed.

(** Each operation other than [close] starts by sending its command. *)
Lemma bind_assoc {A B C} (m : M A) (f : A → M B) (g : B → M C) st :
  bind m (fun x => bind (f x) g) st = bind (bind m f) g st.
Proof. unfold bind. by destruct (m st) as [[a|e] st']. Qed.

Lemma run_op_unfold o st :
  run_op o st =
  match o with
  | OpPing => try_except (send Ping) ConnectionError (fun _ => ret (VBool false))
  | OpGetInfo => send Info
  | OpGetVersion =>
      bind (send Info) (fun info =>
        match py_get info "redis_version" (VStr "unknown") with
        | Ok v => ret v
        | Raise e => raise e
        end)
  | OpGetModules => send ModuleList
  | OpHasModule n =>
      bind (send ModuleList) (fun modules =>
        match py_iter modules with
        | Ok mods => match any_named n mods with
                     | Ok v => ret v
                     | Raise e => raise e
                     end
        | Raise e => raise e
        end)
  | OpSet k v => send (SetKey k v)
  | OpGet k => send (GetKey k)
  | OpDelete ks => send (Delete ks)
  | OpCreateSearchIndex n p sch =>
      bind (send (FtCreateIndex n sch (mk_definition [p] HASH))) (fun _ => ret VNone)
  | OpDropSearchIndex n =>
      bind (try_except (send (FtDropIndex n)) ResponseError (fun _ => ret VNone))
           (fun _ => ret VNone)
  | OpAddDocument k m => send (HSet k m)
  | OpSearch n q => send (FtSearch n (mk_query q true))
  | OpJsonSet k p v => send (JsonSet k p v)
  | OpJsonGet k p => send (JsonGet k (if truthy_str p then p else None))
  | OpClose => close
  end st.
Proof.
  destruct o as [| | | | | | | |n p sch| | | | |k p|]; try reflexivity.
  - cbn [run_op]. unfold create_search_index, send. by rewrite <- bind_assoc.
  - cbn [run_op]. unfold json_get. by destruct (truthy_str p).
Qed.

(** How each operation ends when the command it sends raises [e]. *)
Theorem native_error_outcome o c st e w :
  command_of o = Some c →
  execute c (connection st) (store st.2) = (Raise e, w) →
  (run_op o st).1 =
  match o with
  | OpPing =>
      if issubclass (exc_cls e) ConnectionError then Ok (VBool false) else Raise e
  | OpDropSearchIndex _ =>
      if issubclass (exc_cls e) ResponseError then Ok VNone else Raise e
  | _ => Raise e
  end.
Proof.
  intros Hc Hx. pose proof (send_spec c st) as Hs. rewrite Hx in Hs.
  cbn [fst snd] in Hs. rewrite run_op_unfold.
  destruct o; cbn [command_of] in Hc; simplify_eq;
    try (by rewrite Hs); try (by erewrite bind_raise by exact Hs).
  - erewrite try_except_raise by exact Hs. by destruct (issubclass _ _).
  - unfold bind. erewrite try_except_raise by exact Hs.
    by destruct (issubclass _ _).
Qed.

(** C1 (the code departs from it).  [drop_search_index] returns [None]
    whenever the library answers the drop with an exception of class
    [ResponseError] or a subclass, whatever the error says: not only when
    the index is missing. *)
Theorem drop_search_index_swallows_response_errors name st e w :
  execute (FtDropIndex name) (connection st) (store st.2) = (Raise e, w) →
  issubclass (exc_cls e) ResponseError = true →
  (drop_search_index name st).1 = Ok VNone.
Proof.
  intros Hx Hcls.
  pose proof (native_error_outcome (OpDropSearchIndex name) _ st e w eq_refl Hx) as Ho.
  cbn [run_op] in Ho. by rewrite Hcls in Ho.
Qed.

(** *** The connection's life cycle *)

Lemma run_op_state o c st :
  command_of o = Some c → (run_op o st).2 = (send c st).2.
Proof.
  intros Hc. rewrite run_op_unfold.
  destruct o; cbn [command_of] in Hc; simplify_eq; try reflexivity;
    unfold bind, try_except, ret, raise; rewrite send_spec;
    destruct (execute _ _ _) as [[v|e] w]; cbn [fst snd]; try reflexivity.
  - by destruct (issubclass _ _).
  - by destruct (py_get _ _ _).
  - destruct (py_iter v); [|reflexivity]. by destruct (any_named _ _).
  - by destruct (issubclass _ _).
Qed.

Lemma close_spec st :
  close st = (Ok VNone,
              (mk_client (config st.1) None,
               mk_heap (next_obj st.2)
                       (match _client st.1 with
                        | Some r => close_conn r (store st.2)
                        | None => store st.2
                        end))).
Proof. destruct st as [[cfg [r|]] [n w]]; reflexivity. Qed.

Lemma send_allocated c st : allocated st → allocated (send c st).2.
Proof.
  intros Hst r. rewrite send_spec. cbn [fst snd _client next_obj].
  intros [= <-]. unfold connection.
  destruct (_client st.1) as [r|] eqn:Hr.
  - by apply Hst.
  - cbn [obj_id]. lia.
Qed.

Lemma run_op_allocated o st : allocated st → allocated (run_op o st).2.
Proof.
  intros Hst. destruct (command_of o) as [c|] eqn:Hc.
  - rewrite (run_op_state o c st Hc). by apply send_allocated.
  - destruct o; try discriminate. cbn [run_op]. rewrite close_spec.
    intros r. cbn [fst snd _client]. discriminate.
Qed.

Lemma run_block_allocated b st : allocated st → allocated (run_block b st).2.
Proof.
  revert st. induction b as [v|e|o k IH]; intros st Hst; cbn [run_block];
    [exact Hst|exact Hst|].
  pose proof (run_op_allocated o st Hst) as Hop.
  destruct (run_op o st) as [r st']. by apply IH.
Qed.

(** C5. A managed block ends as its body ends, with [close] run on the
    state the body leaves (so the connection object it holds, if any, is
    closed) and the handle cleared to [None], whether the body returned or
    raised.  Any operation after it other than [close] sends its command
    on a connection object built then, whose identity is that of no
    object built before: not the one the block held. *)
Theorem with_block_closes (b : block) st :
  allocated st →
  let body := run_block b st in
  let final := with_block (run_block b) st in
  final.1 = body.1
  ∧ final.2 = (close body.2).2
  ∧ _client final.2.1 = None
  ∧ (∀ old, _client body.2.1 = Some old →
            store final.2.2 = close_conn old (store body.2.2))
  ∧ ∀ o c, command_of o = Some c →
      let fresh := connection final.2 in
      let after := run_op o final.2 in
      obj_id fresh = next_obj final.2.2
      ∧ (∀ old, _client body.2.1 = Some old → obj_id fresh ≠ obj_id old)
      ∧ _client after.2.1 = Some fresh
      ∧ store after.2.2 = (execute c fresh (store final.2.2)).2.
Proof.
  intros Hst body final.
  pose proof (run_block_allocated b st Hst) as Hbody. fold body in Hbody.
  assert (final = (body.1, (close body.2).2)) as Hfinal.
  { subst final body. unfold with_block, __enter__, __exit__. cbn [fst].
    destruct (run_block b st) as [r st1]. cbn [fst snd]. rewrite close_spec.
    reflexivity. }
  rewrite Hfinal. cbn [fst snd]. rewrite close_spec. cbn [fst snd _client].
  split; [reflexivity|]. split; [reflexivity|]. split; [reflexivity|]. split.
  { intros old Hold. cbn [store]. by rewrite Hold. }
  intros o c Hc. split; [reflexivity|]. split.
  { intros old Hold. specialize (Hbody old Hold).
    unfold connection. cbn [fst snd _client obj_id next_obj]. lia. }
  rewrite (run_op_state o c _ Hc), send_spec. split; reflexivity.
Qed.

End Generic.

Section OnAServingStore.

Context {W : Type} `{StoreContract W}.

Implicit Types (st : @state W).

Lemma drop_search_index_spec name st :
  drop_search_index name st =
  (match (execute (FtDropIndex name) (connection st) (store st.2)).1 with
   | Ok _ => Ok VNone
   | Raise e => if issubclass (exc_cls e) ResponseError then Ok VNone else Raise e
   end,
   (send (FtDropIndex name) st).2).
Proof.
  change (drop_search_index name st) with (run_op (OpDropSearchIndex name) st).
  rewrite run_op_unfold. unfold bind, try_except, ret. rewrite send_spec.
  destruct (execute _ _ _) as [[v|e] w]; cbn [fst snd]; [reflexivity|].
  by destruct (issubclass _ _).
Qed.

(** A command that leaves the store as it is can be sent again with the
    same outcome, and then changes nothing. *)
Lemma send_unchanged_again c st r :
  execute c (connection st) (store st.2) = (r, store st.2) →
  send c st = (r, (send c st).2)
  ∧ store (send c st).2.2 = store st.2
  ∧ send c (send c st).2 = (r, (send c st).2).
Proof.
  intros Hx. destruct st as [[cfg [r0|]] [n w]];
    unfold send, bind, client, call, connection in *;
    cbn [fst snd _client config next_obj store] in *;
    rewrite !Hx; cbn [fst snd _client config next_obj store]; rewrite ?Hx;
    done.
Qed.

(** C4. On a serving store with no index of the given name,
    [drop_search_index] returns [None] without raising and leaves the
    store as it was; a second call in a row returns [None] again and
    changes nothing. *)
Theorem drop_missing_index_is_noop (name : string) st :
  serving (store st.2) = true →
  has_index (store st.2) name = false →
  let once := drop_search_index name st in
  let twice := drop_search_index name once.2 in
  once.1 = Ok VNone
  ∧ store once.2.2 = store st.2
  ∧ twice = (Ok VNone, once.2).
Proof.
  intros Hup Hmissing once twice. subst twice once.
  destruct (drop_missing (connection st) _ name Hup Hmissing) as [msg Hx].
  destruct (send_unchanged_again _ st _ Hx) as (Hfirst & Hstore & Hsecond).
  rewrite (drop_search_index_spec name st), Hx. cbn [fst snd exc_cls].
  split; [reflexivity|]. split; [exact Hstore|].
  pose proof (send_spec (FtDropIndex name) (send (FtDropIndex name) st).2) as Hs.
  rewrite Hsecond in Hs. injection Hs as Hr _.
  rewrite drop_search_index_spec, Hsecond, <- Hr. reflexivity.
Qed.

(** C6. On a serving store, writing [v] at the root path of a key
    succeeds, and reading the key without a path then returns [v]. *)
Theorem json_round_trip (key : string) (v : pyval) st :
  serving (store st.2) = true →
  let written := json_set key "$" v st in
  written.1 = Ok (VBool true)
  ∧ (json_get key None written.2).1 = Ok v.
Proof.
  intros Hup written. subst written.
  destruct (json_set_root (connection st) _ key v Hup) as (w' & Hx & Hup' & Hdoc).
  change (json_set key "$" v st) with (send (JsonSet key "$" v) st).
  change (json_get key None) with (send (JsonGet key None)).
  rewrite !send_spec, Hx. cbn [fst snd store].
  split; [reflexivity|].
  by rewrite (json_get_document _ _ key v Hup' Hdoc).
Qed.

(** C10. A read with the empty string as path is the read with no path:
    same outcome, same state, and the command sent is the whole-document
    read; on a serving store it returns the document of the key itself,
    not a list of matched nodes. *)
Theorem json_get_empty_path_is_no_path (key : string) st :
  json_get key (Some "") st = json_get key None st
  ∧ json_get key (Some "") st = send (JsonGet key None) st
  ∧ (∀ doc, serving (store st.2) = true →
            json_doc (store st.2) key = Some doc →
            (json_get key (Some "") st).1 = Ok doc).
Proof.
  split; [reflexivity|]. split; [reflexivity|].
  intros doc Hup Hdoc.
  change (json_get key (Some "") st) with (send (JsonGet key None) st).
  rewrite send_spec. cbn [fst].
  by rewrite (json_get_document _ _ key doc Hup Hdoc).
Qed.

End OnAServingStore.

Section OnAStoreWithPaths.

Context {W : Type} `{StoreContract W} `{!PathEngine W}.

Implicit Types (st : @state W).

Lemma nonempty_truthy (path : string) : path ≠ "" → truthy_str (Some path) = true.
Proof. intros Hp. cbn. by rewrite bool_decide_eq_false_2. Qed.


End OnAStoreWithPaths.

(** *** The in-memory store meets the contract *)

#[global] Instance mem_contract : StoreContract mem.
Proof.
  split.
  - intros r w name Hup Hmissing. exists "Unknown Index name".
    cbn in Hup, Hmissing. apply andb_true_iff in Hup as [Hr Hs].
    cbn. unfold mem_execute. rewrite Hr, Hs, Hmissing. reflexivity.
  - intros r w name Hup Hexists.
    cbn in Hup, Hexists. apply andb_true_iff in Hup as [Hr Hs].
    eexists _, _. cbn. unfold mem_execute. rewrite Hr, Hs, Hexists. cbn.
    split; [reflexivity|]. cbn. rewrite Hr, Hs. split; [reflexivity|].
    apply bool_decide_eq_false.
    intros [_ Hne]%elem_of_difference. apply Hne. by apply elem_of_singleton.
  - intros r w key v Hup. cbn in Hup. apply andb_true_iff in Hup as [Hr Hs].
    eexists. cbn. unfold mem_execute. rewrite Hr. cbn.
    split; [reflexivity|]. cbn. rewrite Hr, Hs. split; [reflexivity|].
    by rewrite lookup_insert_eq.
  - intros r w key v Hup Hdoc. cbn in Hup, Hdoc.
    apply andb_true_iff in Hup as [Hr Hs].
    cbn. unfold mem_execute. rewrite Hr. cbn.
    destruct (keyspace w !! key) as [[?|?|doc]|]; try discriminate.
    injection Hdoc as ->. reflexivity.
  - intros r w key v p nodes Hup Hdoc Hpath. cbn in Hup, Hdoc.
    apply andb_true_iff in Hup as [Hr Hs].
    cbn. unfold mem_execute. rewrite Hr. cbn.
    destruct (keyspace w !! key) as [[?|?|doc]|]; try discriminate.
    injection Hdoc as ->. by rewrite Hpath.
Qed.

(** The in-memory store's path engine is [jsonpath]. *)
#[global] Instance mem_paths : PathEngine mem := {
  evaluate := jsonpath;
  evaluate_dotted := fun p doc nodes Hp => Hp;
  read_evaluated := fun r w key doc p nodes => json_get_path r w key doc p nodes;
}.

Lemma drop_search_index_swallows_response_errors_witness :
  execute (FtDropIndex "blog-idx") (connection (fresh_client mem_without_search))
          mem_without_search
  = (Raise (unknown_command "FT.DROPINDEX"), mem_without_search)
  ∧ issubclass ResponseError ResponseError = true
  ∧ (drop_search_index "blog-idx" (fresh_client mem_without_search)).1 = Ok VNone.
Proof.
  split; [reflexivity|]. split; [reflexivity|].
  exact (drop_search_index_swallows_response_errors "blog-idx"
           (fresh_client mem_without_search) (unknown_command "FT.DROPINDEX")
           mem_without_search eq_refl eq_refl).
Defined.

Lemma with_block_closes_witness :
  allocated (fresh_client mem_empty)
  ∧ (with_block (run_block failing_block) (fresh_client mem_empty)).1
    = Raise (mk_exc ValueError "bad input")
  ∧ _client (with_block (run_block failing_block) (fresh_client mem_empty)).2.1 = None.
Proof.
  assert (allocated (fresh_client mem_empty)) as Hst by (intros r; discriminate).
  split; [exact Hst|].
  destruct (with_block_closes failing_block (fresh_client mem_empty) Hst)
    as (Hr & _ & Hc & _).
  split; [rewrite Hr; reflexivity | exact Hc].
Defined.

Lemma drop_missing_index_is_noop_witness :
  serving (store (fresh_client mem_empty).2) = true
  ∧ has_index (store (fresh_client mem_empty).2) "blog-idx" = false
  ∧ (drop_search_index "blog-idx" (fresh_client mem_empty)).1 = Ok VNone.
Proof.
  split; [reflexivity|]. split; [reflexivity|].
  exact (proj1 (drop_missing_index_is_noop "blog-idx" (fresh_client mem_empty)
                  eq_refl eq_refl)).
Defined.

Lemma json_round_trip_witness :
  serving (store (fresh_client mem_empty).2) = true
  ∧ (json_get "user:1" None
       (json_set "user:1" "$" example_profile (fresh_client mem_empty)).2).1
    = Ok example_profile.
Proof.
  split; [reflexivity|].
  exact (proj2 (json_round_trip "user:1" example_profile (fresh_client mem_empty) eq_refl)).
Defined.


Lemma json_get_empty_path_is_no_path_witness :
  (json_get "user:1" (Some "")
     (json_set "user:1" "$" example_profile (fresh_client mem_empty)).2).1
  = Ok example_profile.
Proof.
  exact (proj2 (proj2 (json_get_empty_path_is_no_path "user:1"
           (json_set "user:1" "$" example_profile (fresh_client mem_empty)).2))
           example_profile eq_refl eq_refl).
Defined.


End ClientFacts.

(** * Properties of the diagnostic probe *)

Module ProbeFacts.

Lemma pings_app (xs ys : list event) : pings (xs ++ ys) = (pings xs ++ pings ys)%list.
Proof. unfold pings. apply omap_app. Qed.

Lemma sleeps_app (xs ys : list event) : sleeps (xs ++ ys) = (sleeps xs ++ sleeps ys)%list.
Proof. unfold sleeps. apply omap_app. Qed.

Lemma pings_after_ping mr d a o : pings (after_ping mr d a o) = [].
Proof.
  unfold after_ping, on_connection_error.
  destruct o as [v|e]; [reflexivity|].
  destruct (issubclass _ _); [|reflexivity].
  by destruct (a <? mr - 1).
Qed.

Lemma sleeps_after_ping mr d a o :
  sleeps (after_ping mr d a o)
  = if connection_failed o && (a <? mr - 1) then [d] else [].
Proof.
  unfold after_ping, on_connection_error, connection_failed.
  destruct o as [v|e]; [reflexivity|].
  destruct (issubclass _ _); [|reflexivity].
  by destruct (a <? mr - 1).
Qed.

Lemma pings_replay mr d a os : pings (replay mr d a os) = os.
Proof.
  revert a. induction os as [|o os IH]; intros a; [reflexivity|].
  cbn [replay]. change (EvPing o :: ?l) with ([EvPing o] ++ l)%list.
  rewrite !pings_app, pings_after_ping, IH. reflexivity.
Qed.

(** The sleeps of a run: one of [d] seconds after each ping that failed
    with a connection error at an attempt before the last. *)
Lemma sleeps_replay mr d (i : nat) os :
  sleeps (replay mr d (Z.of_nat i) os)
  = (fun _ => d) <$> filter (fun o => connection_failed o = true)
                            (take (Z.to_nat (mr - 1) - i) os).
Proof.
  revert i. induction os as [|o os IH]; intros i.
  - by rewrite take_nil.
  - cbn [replay]. change (EvPing o :: ?l) with ([EvPing o] ++ l)%list.
    rewrite !sleeps_app, sleeps_after_ping.
    replace (Z.of_nat i + 1) with (Z.of_nat (S i)) by lia. rewrite IH.
    cbn [sleeps omap app]. change (omap _ []) with (@nil Z). cbn [app].
    destruct (Z.of_nat i <? mr - 1) eqn:Hlt.
    + apply Z.ltb_lt in Hlt.
      replace (Z.to_nat (mr - 1) - i)%nat with (S (Z.to_nat (mr - 1) - S i)) by lia.
      cbn [take]. rewrite filter_cons.
      destruct (connection_failed o); cbn [andb].
      * rewrite decide_True by done. reflexivity.
      * rewrite decide_False by done. reflexivity.
    + apply Z.ltb_ge in Hlt.
      replace (Z.to_nat (mr - 1) - i)%nat with 0%nat by lia.
      replace (Z.to_nat (mr - 1) - S i)%nat with 0%nat by lia.
      rewrite andb_false_r. reflexivity.
Qed.

Section LoopFacts.

Context {W : Type} `{RedisLib W}.

Variable redis_client : Redis.
Variables max_retries delay : Z.

Lemma pings_step o evs a :
  pings (EvPing o :: after_ping max_retries delay a o ++ evs) = o :: pings evs.
Proof.
  change (EvPing o :: ?l) with ([EvPing o] ++ l)%list.
  rewrite !pings_app, pings_after_ping. reflexivity.
Qed.

(** The loop over the attempts [i], [i+1], ..., [i+n-1]: the run is the
    replay of its own pings, it pings at most [n] times, a ping that
    succeeds is the last one and makes the result [True], the result is
    [True] only so, and it is [False] only after all [n] pings. *)
Lemma attempts_run (n i : nat) (w : W) :
  let run := attempts redis_client max_retries delay (Z.of_nat <$> seq i n) w in
  let ps := pings run.2 in
  run.2 = replay max_retries delay (Z.of_nat i) ps
  ∧ (length ps ≤ n)%nat
  ∧ (∀ j o, ps !! j = Some o → succeeded o = true →
            S j = length ps ∧ run.1.1 = Ok (VBool true))
  ∧ (run.1.1 = Ok (VBool true) → ∃ o, last ps = Some o ∧ succeeded o = true)
  ∧ (run.1.1 = Ok (VBool false) → length ps = n).
Proof.
  revert i w. induction n as [|n IH]; intros i w.
  - cbn. repeat split; done.
  - cbn [seq fmap list_fmap attempts].
    destruct (execute Ping redis_client w) as [o w1].
    specialize (IH (S i) w1). cbn zeta in IH.
    change (list_fmap nat Z Z.of_nat (seq (S i) n)) with (Z.of_nat <$> seq (S i) n).
    destruct (attempts redis_client max_retries delay (Z.of_nat <$> seq (S i) n) w1)
      as [[r' w2] evs].
    cbn [fst snd] in IH. destruct IH as (Hshape & Hlen & Hsucc & Htrue & Hfalse).
    assert (Z.of_nat i + 1 = Z.of_nat (S i)) as Hnext by lia.
    destruct o as [v|e].
    + destruct (truthy v) eqn:Hv; cbn [fst snd].
      * cbn. split; [reflexivity|]. split; [lia|]. split; [|split].
        -- intros [|j] o Hj Ho; [done|]. discriminate Hj.
        -- intros _. exists (Ok v). split; [done|]. exact Hv.
        -- intros Hr. discriminate Hr.
      * change (EvPing (Ok v) :: evs)
          with (EvPing (Ok v) :: after_ping max_retries delay (Z.of_nat i) (Ok v) ++ evs)%list.
        rewrite pings_step. cbn [replay]. rewrite Hnext, <- Hshape.
        split; [reflexivity|]. split; [cbn [length]; lia|]. split; [|split].
        -- intros [|j] o Hj Ho.
           ++ injection Hj as <-. cbn in Ho. congruence.
           ++ destruct (Hsucc j o Hj Ho) as [Hl Hr]. cbn [length]. by rewrite Hl.
        -- intros Hr. destruct (Htrue Hr) as (o & Hlast & Ho).
           exists o. split; [|exact Ho]. rewrite last_cons. by rewrite Hlast.
        -- intros Hr. cbn [length]. by rewrite (Hfalse Hr).
    + destruct (issubclass (exc_cls e) ConnectionError) eqn:Hcls; cbn [fst snd].
      * replace (on_connection_error max_retries delay (Z.of_nat i) e)
          with (after_ping max_retries delay (Z.of_nat i) (Raise e))
          by (unfold after_ping; by rewrite Hcls).
        rewrite pings_step. cbn [replay]. rewrite Hnext, <- Hshape.
        split; [reflexivity|]. split; [cbn [length]; lia|]. split; [|split].
        -- intros [|j] o Hj Ho.
           ++ injection Hj as <-. discriminate Ho.
           ++ destruct (Hsucc j o Hj Ho) as [Hl Hr]. cbn [length]. by rewrite Hl.
        -- intros Hr. destruct (Htrue Hr) as (o & Hlast & Ho).
           exists o. split; [|exact Ho]. rewrite last_cons. by rewrite Hlast.
        -- intros Hr. cbn [length]. by rewrite (Hfalse Hr).
      * cbn. rewrite Hcls. cbn. split; [reflexivity|]. split; [lia|]. split; [|split].
        -- intros [|j] o Hj Ho; [injection Hj as <-; discriminate Ho|].
           discriminate Hj.
        -- intros Hr. discriminate Hr.
        -- intros Hr. discriminate Hr.
Qed.

End LoopFacts.

(** C9, as amended.  Called with its defaults, the loop pings at most 5
    times.  Its run is its pings in order, each followed by the progress
    lines, the log fetch and a sleep of 2 seconds exactly when that ping
    raised a connection error and was not the fifth; so every sleep lasts 2
    seconds, and a ping that returns a falsy value is followed at once by
    the next ping.  A ping that succeeds is the last event and the result is
    [True]; the result is [True] only then, and [False] only after all 5
    pings. *)
Theorem wait_for_redis_bounded {W : Type} `{RedisLib W} (r : Redis) (w : W) :
  let run := wait_for_redis r 5 2 w in
  let ps := pings run.2 in
  (length ps ≤ 5)%nat
  ∧ run.2 = replay 5 2 0 ps
  ∧ sleeps run.2
    = (fun _ => 2) <$> filter (fun o => connection_failed o = true) (take 4 ps)
  ∧ (∀ j o, ps !! j = Some o → succeeded o = true →
            S j = length ps ∧ run.1.1 = Ok (VBool true))
  ∧ (run.1.1 = Ok (VBool true) → ∃ o, last ps = Some o ∧ succeeded o = true)
  ∧ (run.1.1 = Ok (VBool false) → length ps = 5%nat).
Proof.
  intros run ps.
  destruct (attempts_run r 5 2 5 0 w) as (Hshape & Hlen & Hsucc & Htrue & Hfalse).
  change (attempts r 5 2 (Z.of_nat <$> seq 0 5) w) with run in *.
  fold ps in Hshape, Hlen, Hsucc, Htrue, Hfalse.
  split; [exact Hlen|]. split; [exact Hshape|]. split.
  { rewrite Hshape at 1. exact (sleeps_replay 5 2 0 ps). }
  split; [exact Hsucc|]. split; [exact Htrue | exact Hfalse].
Qed.

Lemma wait_for_redis_bounded_witness :
  (wait_for_redis probe_client 5 2
     [Raise (mk_exc ConnectionError "Connection refused."); Ok (VBool true)]).1.1
  = Ok (VBool true)
  ∧ sleeps (wait_for_redis probe_client 5 2
     [Raise (mk_exc ConnectionError "Connection refused."); Ok (VBool true)]).2 = [2].
Proof.
  destruct (wait_for_redis_bounded probe_client
     [Raise (mk_exc ConnectionError "Connection refused."); Ok (VBool true)])
    as (_ & _ & Hsleeps & Hsucc & _).
  split.
  - exact (proj2 (Hsucc 1%nat (Ok (VBool true)) eq_refl eq_refl)).
  - rewrite Hsleeps. reflexivity.
Defined.

(** C9, as stated, fails: when each of the five pings returns [False]
    without raising, the loop makes its five attempts with no sleep between
    them and gives up. *)
Lemma wait_for_redis_retries_false_ping_at_once :
  wait_for_redis probe_client 5 2 (repeat (Ok (VBool false)) 5)
  = (Ok (VBool false), [], repeat (EvPing (Ok (VBool false))) 5)
  ∧ ¬ (∀ (script : list (res pyval)) pre o1 mid o2 post,
         (wait_for_redis probe_client 5 2 script).2
         = (pre ++ EvPing o1 :: mid ++ EvPing o2 :: post)%list →
         pings mid = [] →
         sleeps mid = [2]).
Proof.
  split; [reflexivity|].
  intros Hclaim.
  specialize (Hclaim (repeat (Ok (VBool false)) 5) []
                (Ok (VBool false)) [] (Ok (VBool false))
                (repeat (EvPing (Ok (VBool false))) 3) eq_refl eq_refl).
  discriminate Hclaim.
Qed.

End ProbeFacts.

(** * Further properties of [RedisConfig] *)

Module ConfigMore.

Lemma length_stars (c : ascii) (n : nat) :
  String.length (String.string_of_list_ascii (repeat c n)) = n.
Proof. induction n as [|n IH]; cbn; [reflexivity|]. by rewrite IH. Qed.

Lemma preview_of_nonempty (cfg : RedisConfig) (c : ascii) (rest : string) :
  password cfg = Some (String c rest) →
  get_password_preview cfg
  = String c (String.string_of_list_ascii (repeat "*"%char (String.length rest))).
Proof.
  intros Hpw. unfold get_password_preview. rewrite Hpw.
  rewrite ConfigFacts.str_mul_pred_len. reflexivity.
Qed.

(** X1. The preview of a non-empty credential is as long as the
    credential, and two credentials with the same first character and the
    same length have the same preview: nothing else of the credential
    shows. *)
Theorem preview_shows_first_char_and_length (cfg1 cfg2 : RedisConfig)
    (c1 c2 : ascii) (rest1 rest2 : string) :
  password cfg1 = Some (String c1 rest1) →
  password cfg2 = Some (String c2 rest2) →
  String.length (get_password_preview cfg1) = String.length (String c1 rest1)
  ∧ (c1 = c2 → String.length rest1 = String.length rest2 →
     get_password_preview cfg1 = get_password_preview cfg2).
Proof.
  intros H1 H2.
  rewrite (preview_of_nonempty cfg1 c1 rest1 H1), (preview_of_nonempty cfg2 c2 rest2 H2).
  split.
  - cbn [String.length]. by rewrite length_stars.
  - intros -> ->. reflexivity.
Qed.

Lemma preview_shows_first_char_and_length_witness :
  get_password_preview (mk_config "localhost" 6379 (Some "secret123"))
  = get_password_preview (mk_config "db" 6380 (Some "swordfish")).
Proof.
  exact (proj2 (preview_shows_first_char_and_length
                  (mk_config "localhost" 6379 (Some "secret123"))
                  (mk_config "db" 6380 (Some "swordfish"))
                  "s" "s" "ecret123" "wordfish" eq_refl eq_refl) eq_refl eq_refl).
Defined.

(** X2. The preview is the literal ["None"] exactly when the credential is
    unset or is the empty string; no real credential previews as
    ["None"]. *)
Theorem preview_none_iff_no_credential (cfg : RedisConfig) :
  get_password_preview cfg = "None"
  ↔ password cfg = None ∨ password cfg = Some "".
Proof.
  split.
  - intros Hp. destruct (password cfg) as [[|c rest]|] eqn:Hpw; [by right| |by left].
    exfalso. rewrite (preview_of_nonempty cfg c rest Hpw) in Hp.
    injection Hp as _ Hstars.
    destruct (String.length rest); cbn in Hstars; discriminate Hstars.
  - unfold get_password_preview. by intros [-> | ->].
Qed.

Section Resolution.

Variable py_int : string → option Z.

(** X3. Construction fails only with [ValueError], and exactly when no
    truthy port is passed and the port text taken from [REDIS_PORT] (or
    the default) is not a number: a truthy explicit port shields the
    constructor from a malformed [REDIS_PORT]. *)
Theorem init_fails_exactly_on_bad_port_text (environ : gmap string string)
    (h : option string) (p : option Z) (pw : option string) :
  (∀ e, RedisConfig_init py_int environ h p pw = Raise e →
        exc_cls e = ValueError
        ∧ truthy_int p = false
        ∧ py_int (os_getenv_default environ "REDIS_PORT" "6379") = None)
  ∧ (truthy_int p = false →
     py_int (os_getenv_default environ "REDIS_PORT" "6379") = None →
     is_raise (RedisConfig_init py_int environ h p pw) = true).
Proof.
  unfold RedisConfig_init, int_of_str. split.
  - intros e. destruct (truthy_int p); cbn; [intros; discriminate|].
    destruct (py_int (os_getenv_default _ _ _)); cbn; [intros; discriminate|].
    intros [= <-]. done.
  - intros -> ->. reflexivity.
Qed.

(** X6. The constructor reads three environment variables and no other:
    two environments that agree on [REDIS_HOST], [REDIS_PORT] and
    [REDIS_PASSWORD] give the same settings or the same error. *)
Theorem init_reads_three_variables (env1 env2 : gmap string string)
    (h : option string) (p : option Z) (pw : option string) :
  env1 !! "REDIS_HOST" = env2 !! "REDIS_HOST" →
  env1 !! "REDIS_PORT" = env2 !! "REDIS_PORT" →
  env1 !! "REDIS_PASSWORD" = env2 !! "REDIS_PASSWORD" →
  RedisConfig_init py_int env1 h p pw = RedisConfig_init py_int env2 h p pw.
Proof.
  intros Hh Hp Hpw. unfold RedisConfig_init, os_getenv_default, os_getenv.
  by rewrite Hh, Hp, Hpw.
Qed.

End Resolution.

Lemma init_fails_exactly_on_bad_port_text_witness :
  is_raise (RedisConfig_init decimal (<["REDIS_PORT" := "six"]> ∅) None None None) = true
  ∧ RedisConfig_init decimal (<["REDIS_PORT" := "six"]> ∅) None (Some 6381) None
    = Ok (mk_config "localhost" 6381 None).
Proof.
  split; [|reflexivity].
  exact (proj2 (init_fails_exactly_on_bad_port_text decimal
                  (<["REDIS_PORT" := "six"]> ∅) None None None) eq_refl eq_refl).
Defined.

Lemma init_reads_three_variables_witness :
  RedisConfig_init decimal (<["PATH" := "/usr/bin"]> example_environ) None None None
  = RedisConfig_init decimal example_environ None None None.
Proof.
  apply (init_reads_three_variables decimal (<["PATH" := "/usr/bin"]> example_environ)
           example_environ None None None); reflexivity.
Defined.

Section SettingsFile.

Variable py_int : string → option Z.
Variable default_env_path : string.

(** X4. For settings loaded through [from_env] from a settings file, a
    variable already in the process environment beats the value the file
    gives it, and the file's value (that of the last line binding the
    name) beats the default: this holds for the host, the credential and
    the port text. *)
Theorem from_env_environment_beats_file (fs : gmap string fs_entry)
    (environ : gmap string string) (env_path : option string)
    (bs : list (string * option string)) (cfg : RedisConfig) :
  fs !! default default_env_path env_path = Some (RegularFile bs) →
  (from_env py_int default_env_path fs environ env_path).1 = Ok cfg →
  host cfg
  = spec_choice (environ !! "REDIS_HOST") (file_value bs "REDIS_HOST") "localhost"
  ∧ password cfg
    = spec_choice (Some <$> environ !! "REDIS_PASSWORD")
                  (Some <$> file_value bs "REDIS_PASSWORD") None
  ∧ py_int (spec_choice (environ !! "REDIS_PORT") (file_value bs "REDIS_PORT") "6379")
    = Some (port cfg).
Proof.
  intros Hfile Hok.
  assert (RedisConfig_init py_int
            (load_dotenv fs (default default_env_path env_path) environ) None None None
          = Ok cfg) as Hinit.
  { revert Hok. unfold from_env.
    replace (match env_path with Some p0 => p0 | None => default_env_path end)
      with (default default_env_path env_path) by (by destruct env_path).
    destruct (negb (path_exists fs _)); cbn [fst]; [discriminate|done]. }
  pose proof (ConfigFacts.init_on_merged py_int environ _ bs
                (fun k => ConfigFacts.load_dotenv_regular_file fs _ environ bs k Hfile))
    as Hmerged.
  unfold resolved_from_file in Hmerged.
  destruct (py_int (spec_choice _ _ "6379")) as [n|].
  - rewrite Hinit in Hmerged. by injection Hmerged as ->.
  - destruct Hmerged as (e & He & _). congruence.
Qed.

(** X5. Loading the settings file a second time changes nothing:
    [from_env] called again on the environment it left gives the same
    outcome and the same environment. *)
Theorem from_env_twice (fs : gmap string fs_entry) (environ : gmap string string)
    (env_path : option string) :
  from_env py_int default_env_path fs
    (from_env py_int default_env_path fs environ env_path).2 env_path
  = from_env py_int default_env_path fs environ env_path.
Proof.
  unfold from_env. destruct (negb (path_exists fs _)); cbn [snd]; [reflexivity|].
  unfold load_dotenv. by rewrite <- (base.assoc (∪)), (base.idemp (∪)).
Qed.

(** X7. The probe script's [load_env] and [RedisConfig.from_env] at the
    default path treat the settings file alike: the script exits (with
    status 1, after printing the same remediation hint) exactly when
    [from_env] raises [FileNotFoundError], that is when nothing exists at
    the path, and both leave the same environment. *)
Theorem load_env_agrees_with_from_env (fs : gmap string fs_entry)
    (environ : gmap string string) :
  let script := load_env default_env_path fs environ in
  let wrapper := from_env py_int default_env_path fs environ None in
  script.1.2 = wrapper.2
  ∧ (script.1.1 = Some 1 ↔ fs !! default_env_path = None)
  ∧ (script.1.1 = Some 1 ↔ ∃ msg, wrapper.1 = Raise (mk_exc FileNotFoundError msg))
  ∧ (script.1.1 = Some 1 → last script.2 = Some not_found_hint)
  ∧ (script.1.1 ≠ Some 1 → script.1.1 = None ∧ script.2 = []).
Proof.
  intros script wrapper. subst script wrapper. unfold load_env, from_env, path_exists.
  case_bool_decide as Hex; cbn [negb fst snd].
  - destruct Hex as [x Hx]. rewrite Hx.
    split; [reflexivity|]. split; [split; intros; discriminate|]. split.
    + split; [intros; discriminate|]. intros [msg Hmsg].
      apply ConfigFacts.init_raises_value_error in Hmsg. discriminate Hmsg.
    + split; [intros; discriminate|]. done.
  - assert (fs !! default_env_path = None) as Hnone.
    { destruct (fs !! default_env_path) eqn:E; [|reflexivity].
      exfalso. apply Hex. by eexists. }
    split; [reflexivity|]. split; [done|]. split.
    + split; [|done]. intros _. by eexists.
    + split; [done|]. intros Hne. by destruct Hne.
Qed.

End SettingsFile.

Lemma from_env_environment_beats_file_witness :
  example_fs !! "/srv/app/.env"
  = Some (RegularFile [("REDIS_HOST", Some "file-host");
                       ("REDIS_PASSWORD", Some "file-secret");
                       ("REDIS_DEBUG", None)])
  ∧ (from_env decimal "/srv/app/.env" example_fs example_environ None).1
    = Ok (mk_config "env-host" 6380 (Some "file-secret"))
  ∧ host (mk_config "env-host" 6380 (Some "file-secret")) = "env-host"
  ∧ password (mk_config "env-host" 6380 (Some "file-secret")) = Some "file-secret".
Proof.
  split; [reflexivity|]. split; [reflexivity|].
  destruct (from_env_environment_beats_file decimal "/srv/app/.env" example_fs
              example_environ None _ (mk_config "env-host" 6380 (Some "file-secret"))
              eq_refl eq_refl) as (Hhost & Hpassword & _).
  split; [rewrite Hhost | rewrite Hpassword]; reflexivity.
Defined.

End ConfigMore.

(** * Further properties of [RedisStackClient] *)

Module ClientMore.

Section Generic.

Context {W : Type} `{RedisLib W}.

Implicit Types (st : @state W) (c : cmd) (o : op) (e : exc).

Lemma run_op_raise_state o c st e w :
  command_of o = Some c →
  execute c (connection st) (store st.2) = (Raise e, w) →
  (run_op o st).2
  = (mk_client (config st.1) (Some (connection st)),
     mk_heap (if _client st.1 is Some _ then next_obj st.2 else S (next_obj st.2)) w).
Proof.
  intros Hc Hx. rewrite (ClientFacts.run_op_state o c st Hc), ClientFacts.send_spec, Hx.
  reflexivity.
Qed.

(** X8. Every operation other than [ping] and [drop_search_index] raises
    again, unchanged, the exception the library raises for its command;
    the store is left as the library left it and the connection object
    stays held. *)
Theorem operations_reraise_library_errors o c st e w :
  command_of o = Some c →
  o ≠ OpPing →
  (∀ name, o ≠ OpDropSearchIndex name) →
  execute c (connection st) (store st.2) = (Raise e, w) →
  (run_op o st).1 = Raise e
  ∧ store (run_op o st).2.2 = w
  ∧ _client (run_op o st).2.1 = Some (connection st).
Proof.
  intros Hc Hping Hdrop Hx.
  rewrite (run_op_raise_state o c st e w Hc Hx).
  rewrite (ClientFacts.native_error_outcome o c st e w Hc Hx).
  split; [|split; reflexivity].
  destruct o; try reflexivity; [by destruct Hping | by edestruct Hdrop].
Qed.

(** X9. [ping] returns the library's reply when there is one and [False]
    when the library raises [ConnectionError] or a subclass of it
    ([AuthenticationError], [BusyLoadingError]); any other exception, a
    [TimeoutError] for one, is raised again.  So [ping] never raises a
    connection error. *)
Theorem ping_converts_connection_errors_only st :
  (∀ v w, execute Ping (connection st) (store st.2) = (Ok v, w) → (ping st).1 = Ok v)
  ∧ (∀ e w, execute Ping (connection st) (store st.2) = (Raise e, w) →
            exc_cls e ∈ [ConnectionError; AuthenticationError; BusyLoadingError] →
            (ping st).1 = Ok (VBool false))
  ∧ (∀ e w, execute Ping (connection st) (store st.2) = (Raise e, w) →
            exc_cls e ∉ [ConnectionError; AuthenticationError; BusyLoadingError] →
            (ping st).1 = Raise e)
  ∧ (∀ e, (ping st).1 = Raise e → issubclass (exc_cls e) ConnectionError = false).
Proof.
  assert (∀ cls, issubclass cls ConnectionError = true
                 ↔ cls ∈ [ConnectionError; AuthenticationError; BusyLoadingError])
    as Hsub.
  { intros cls. rewrite !elem_of_cons, elem_of_nil.
    destruct cls; cbn; split; intros Hc; try done; try tauto;
      destruct Hc as [Hc|[Hc|[Hc|[]]]]; discriminate Hc. }
  change (ping st) with (run_op OpPing st).
  destruct (execute Ping (connection st) (store st.2)) as [[v|e] w] eqn:Hx.
  - assert ((run_op OpPing st).1 = Ok v) as Hok.
    { rewrite ClientFacts.run_op_unfold. unfold try_except.
      rewrite ClientFacts.send_spec, Hx. reflexivity. }
    split; [by intros ? ? [= <- <-]|]. split; [intros; discriminate|].
    split; [intros; discriminate|]. intros e He. rewrite Hok in He. discriminate He.
  - pose proof (ClientFacts.native_error_outcome OpPing Ping st e w eq_refl Hx) as Ho.
    cbn [run_op] in Ho. change ping with (run_op OpPing) in Ho.
    split; [intros; discriminate|]. split; [|split].
    + intros e' w' [= <- <-] Hin. apply Hsub in Hin. by rewrite Ho, Hin.
    + intros e' w' [= <- <-] Hnin. rewrite Ho.
      destruct (issubclass (exc_cls e) ConnectionError) eqn:E; [|reflexivity].
      exfalso. apply Hnin. by apply Hsub.
    + intros e' He'. rewrite Ho in He'.
      destruct (issubclass (exc_cls e) ConnectionError) eqn:E; [discriminate He'|].
      by injection He' as <-.
Qed.

(** X10. [drop_search_index] returns [None] whatever the library replies
    on success, and raises again every exception that is not a
    [ResponseError]: a refused connection during a drop surfaces.  It never
    raises a response error. *)
Theorem drop_search_index_keeps_other_errors (name : string) st :
  (∀ v w, execute (FtDropIndex name) (connection st) (store st.2) = (Ok v, w) →
          (drop_search_index name st).1 = Ok VNone)
  ∧ (∀ e w, execute (FtDropIndex name) (connection st) (store st.2) = (Raise e, w) →
            issubclass (exc_cls e) ResponseError = false →
            (drop_search_index name st).1 = Raise e)
  ∧ (∀ e, (drop_search_index name st).1 = Raise e →
          issubclass (exc_cls e) ResponseError = false).
Proof.
  change (drop_search_index name st) with (run_op (OpDropSearchIndex name) st).
  destruct (execute (FtDropIndex name) (connection st) (store st.2)) as [[v|e] w] eqn:Hx.
  - assert ((run_op (OpDropSearchIndex name) st).1 = Ok VNone) as Hok.
    { rewrite ClientFacts.run_op_unfold. unfold bind, try_except, ret.
      rewrite ClientFacts.send_spec, Hx. reflexivity. }
    split; [by intros|]. split; [intros; discriminate|].
    intros e He. rewrite Hok in He. discriminate He.
  - pose proof (ClientFacts.native_error_outcome (OpDropSearchIndex name) _ st e w
                  eq_refl Hx) as Ho.
    split; [intros; discriminate|]. split.
    + intros e' w' [= <- <-] Hcls. by rewrite Ho, Hcls.
    + intros e' He'. rewrite Ho in He'.
      destruct (issubclass (exc_cls e) ResponseError) eqn:E; [discriminate He'|].
      by injection He' as <-.
Qed.

(** X11. [get_version] returns the ["redis_version"] entry of the server
    information, the string ["unknown"] when the information has no such
    entry, and raises [AttributeError] when the library hands back
    something that is not a dictionary. *)
Theorem get_version_outcome st (info : pyval) w :
  execute Info (connection st) (store st.2) = (Ok info, w) →
  (get_version st).1
  = match info with
    | VDict d => Ok (default (VStr "unknown") (Lib.assoc "redis_version" d))
    | _ => Raise (mk_exc AttributeError "object has no attribute 'get'")
    end.
Proof.
  intros Hx. change (get_version st) with (run_op OpGetVersion st).
  rewrite ClientFacts.run_op_unfold. unfold bind.
  rewrite ClientFacts.send_spec, Hx. cbn [fst snd].
  by destruct info.
Qed.

Lemma any_named_dicts (name : string) (mods : list pyval) :
  forallb is_dict mods = true →
  any_named name mods = Ok (VBool (existsb (named name) mods)).
Proof.
  induction mods as [|m mods IH]; [reflexivity|].
  cbn [forallb any_named existsb]. intros [Hm Hmods]%andb_true_iff.
  destruct m as [| | | | | |d]; try discriminate Hm.
  cbn [py_get named]. destruct (Lib.assoc "name" d) as [v|]; cbn.
  - destruct (eq_str v name); [reflexivity|]. by apply IH.
  - by apply IH.
Qed.

Lemma any_named_match (name : string) (before after : list pyval) (m : pyval) :
  forallb is_dict before = true →
  named name m = true →
  any_named name (before ++ m :: after) = Ok (VBool true).
Proof.
  intros Hbefore Hm. induction before as [|b before IH].
  - cbn [app any_named]. destruct m as [| | | | | |d]; try discriminate Hm.
    cbn [py_get named] in *. destruct (Lib.assoc "name" d) as [v|]; [|discriminate Hm].
    cbn. by rewrite Hm.
  - cbn [forallb] in Hbefore. apply andb_true_iff in Hbefore as [Hb Hrest].
    destruct b as [| | | | | |d]; try discriminate Hb.
    cbn [app any_named py_get]. destruct (Lib.assoc "name" d) as [v|]; cbn.
    + destruct (eq_str v name); [reflexivity|]. by apply IH.
    + by apply IH.
Qed.

Lemma has_module_of_list (name : string) st (mods : list pyval) w :
  execute ModuleList (connection st) (store st.2) = (Ok (VList mods), w) →
  (has_module name st).1 = any_named name mods.
Proof.
  intros Hx. change (has_module name st) with (run_op (OpHasModule name) st).
  rewrite ClientFacts.run_op_unfold. unfold bind.
  rewrite ClientFacts.send_spec, Hx. cbn [fst snd py_iter].
  by destruct (any_named name mods).
Qed.

(** X12. When the library lists the modules as dictionaries, [has_module]
    is [True] exactly when one of them has a ["name"] entry equal to the
    given name; an entry without ["name"] counts as no match, and an empty
    list gives [False]. *)
Theorem has_module_exact_name (name : string) st (mods : list pyval) w :
  execute ModuleList (connection st) (store st.2) = (Ok (VList mods), w) →
  forallb is_dict mods = true →
  (has_module name st).1 = Ok (VBool (existsb (named name) mods)).
Proof.
  intros Hx Hdicts. rewrite (has_module_of_list name st mods w Hx).
  by apply any_named_dicts.
Qed.

(** X13. [has_module] stops at the first module with the given name: what
    the list holds after it, even an entry that is no dictionary, is never
    looked at and cannot make the call raise. *)
Theorem has_module_stops_at_first_match (name : string) st
    (before after : list pyval) (m : pyval) w :
  execute ModuleList (connection st) (store st.2)
  = (Ok (VList (before ++ m :: after)), w) →
  forallb is_dict before = true →
  named name m = true →
  (has_module name st).1 = Ok (VBool true).
Proof.
  intros Hx Hbefore Hm. rewrite (has_module_of_list name st _ w Hx).
  by apply any_named_match.
Qed.

(** X14. [close] with no connection open does nothing, so closing twice is
    closing once: the second call returns [None] and leaves the instance,
    the store and the object counter as they are.  A managed block whose
    body never calls the client builds no connection object and leaves the
    state untouched. *)
Theorem close_twice_is_close_once st :
  close (close st).2 = (Ok VNone, (close st).2)
  ∧ (_client st.1 = None →
     ∀ v, with_block (run_block (Return v)) st = (Ok v, st)).
Proof.
  split.
  - rewrite (ClientFacts.close_spec st), ClientFacts.close_spec. reflexivity.
  - intros Hnone v. destruct st as [[cfg oc] [n w]]. cbn in Hnone. subst oc.
    reflexivity.
Qed.

Lemma run_op_keeps_connection o st :
  o ≠ OpClose →
  _client (run_op o st).2.1 = Some (connection st)
  ∧ config (run_op o st).2.1 = config st.1
  ∧ next_obj (run_op o st).2.2
    = (if _client st.1 is Some _ then next_obj st.2 else S (next_obj st.2)).
Proof.
  intros Ho. destruct (command_of o) as [c|] eqn:Hc.
  - rewrite (ClientFacts.run_op_state o c st Hc), ClientFacts.send_spec. done.
  - destruct o; try discriminate Hc. by destruct Ho.
Qed.

(** X15. A block that never calls [close] works on one connection object:
    either it ends without having called the client, the state untouched,
    or the instance holds the connection object the first call found or
    built, and at most one object was built on the way. *)
Theorem block_shares_one_connection (b : block) st :
  closes_nothing b →
  let final := (run_block b st).2 in
  final = st
  ∨ (_client final.1 = Some (connection st)
     ∧ next_obj final.2
       = (if _client st.1 is Some _ then next_obj st.2 else S (next_obj st.2))).
Proof.
  intros Hb. revert st. induction Hb as [v|e|o k Ho Hk IH]; intros st;
    [by left|by left|].
  right. cbn [run_block].
  destruct (run_op_keeps_connection o st Ho) as (Hheld & _ & Hnext).
  destruct (run_op o st) as [r st1]. cbn [snd fst] in Hheld, Hnext.
  destruct (IH r st1) as [-> | [Hc Hn]]; [done|].
  assert (connection st1 = connection st) as Hsame
    by (unfold connection at 1; by rewrite Hheld).
  rewrite Hc, Hn, Hheld, Hsame, Hnext. done.
Qed.

Lemma run_op_configured o st :
  configured st →
  configured (run_op o st).2 ∧ config (run_op o st).2.1 = config st.1.
Proof.
  intros Hst.
  assert (o = OpClose ∨ o ≠ OpClose) as [->|Ho] by (destruct o; (by left) || (by right)).
  - cbn [run_op]. rewrite ClientFacts.close_spec. split; [|reflexivity].
    intros r. cbn [fst snd _client]. discriminate.
  - destruct (run_op_keeps_connection o st Ho) as (Hheld & Hcfg & _).
    split; [|exact Hcfg]. intros r. rewrite Hheld, Hcfg. intros [= <-].
    unfold connection. destruct (_client st.1) as [r|] eqn:Hr.
    + by apply Hst.
    + done.
Qed.

(** X16. No operation changes the configuration, and the connection object
    the instance holds is always one built from it: after any block, the
    configuration is the one the client was created with and the commands
    to come go out with its host, port and credential, responses
    decoded. *)
Theorem configuration_is_kept (b : block) st :
  configured st →
  let final := (run_block b st).2 in
  config final.1 = config st.1
  ∧ configured final
  ∧ built_from (config st.1) (connection final).
Proof.
  assert (∀ st', configured st' → built_from (config st'.1) (connection st')) as Hconn.
  { intros st' Hst'. unfold connection. destruct (_client st'.1) as [r|] eqn:Hr.
    - by apply Hst'.
    - done. }
  revert st. induction b as [v|e|o k IH]; intros st Hst; cbn [run_block].
  - split; [done|]. split; [done|]. by apply Hconn.
  - split; [done|]. split; [done|]. by apply Hconn.
  - destruct (run_op_configured o st Hst) as [Hst1 Hcfg].
    destruct (run_op o st) as [r st1]. cbn [snd fst] in Hst1, Hcfg.
    destruct (IH r st1 Hst1) as (Hc & Hf & Hb). rewrite <- Hcfg. done.
Qed.

End Generic.

Lemma operations_reraise_library_errors_witness :
  (run_op (OpGet "greeting") (fresh_client mem_down)).1 = Raise refused.
Proof.
  refine (proj1 (operations_reraise_library_errors (OpGet "greeting") (GetKey "greeting")
                   (fresh_client mem_down) refused mem_down eq_refl _ _ eq_refl));
    intros; discriminate.
Defined.

Lemma get_version_outcome_witness :
  (get_version (fresh_client mem_empty)).1 = Ok (VStr "7.2.4").
Proof.
  exact (get_version_outcome (fresh_client mem_empty)
           (VDict [("redis_version", VStr "7.2.4")]) mem_empty eq_refl).
Defined.

Lemma has_module_exact_name_witness :
  (has_module "search" (fresh_client mem_empty)).1 = Ok (VBool true)
  ∧ (has_module "Search" (fresh_client mem_empty)).1 = Ok (VBool false).
Proof.
  split.
  - exact (has_module_exact_name "search" (fresh_client mem_empty)
             (module_list mem_empty) mem_empty eq_refl eq_refl).
  - exact (has_module_exact_name "Search" (fresh_client mem_empty)
             (module_list mem_empty) mem_empty eq_refl eq_refl).
Defined.

Lemma has_module_stops_at_first_match_witness :
  (has_module "search"
     (mk_client example_config None,
      mk_heap 0 [Ok (VList [VDict [("name", VStr "search")]; VInt 7])])).1
  = Ok (VBool true).
Proof.
  exact (has_module_stops_at_first_match "search"
           (mk_client example_config None,
            mk_heap 0 [Ok (VList [VDict [("name", VStr "search")]; VInt 7])])
           [] [VInt 7] (VDict [("name", VStr "search")]) [] eq_refl eq_refl eq_refl).
Defined.

Lemma block_shares_one_connection_witness :
  closes_nothing reading_block
  ∧ next_obj (run_block reading_block (fresh_client mem_empty)).2.2 = 1%nat.
Proof.
  assert (closes_nothing reading_block) as Hb.
  { apply closes_nothing_call; [discriminate|]. intros r.
    apply closes_nothing_call; [discriminate|]. intros [v|e]; constructor. }
  split; [exact Hb|].
  destruct (block_shares_one_connection reading_block (fresh_client mem_empty) Hb)
    as [Hsame | [_ Hnext]].
  - discriminate Hsame.
  - exact Hnext.
Defined.

Lemma configuration_is_kept_witness :
  configured (fresh_client mem_empty)
  ∧ config (run_block failing_block (fresh_client mem_empty)).2.1 = example_config.
Proof.
  assert (configured (fresh_client mem_empty)) as Hst by (intros r; discriminate).
  split; [exact Hst|].
  exact (proj1 (configuration_is_kept failing_block (fresh_client mem_empty) Hst)).
Defined.

End ClientMore.

(** * Further properties of the diagnostic probe *)

Module ProbeMore.

Section LoopMore.

Context {W : Type} `{RedisLib W}.

Variable redis_client : Redis.
Variables max_retries delay : Z.

Lemma last_app_cons {A} (xs ys : list A) (y : A) :
  last (xs ++ y :: ys) = last (y :: ys).
Proof.
  rewrite last_app. destruct (last (y :: ys)) eqn:E; [reflexivity|].
  by apply last_None in E.
Qed.

(** The loop over the last [n] attempts of the [max_retries]: it ends on
    a ping, never on a sleep; it raises only what its last ping raised,
    and that is no connection error; a ping that raises anything but a
    connection error is the last one. *)
Lemma attempts_end (n i : nat) (w : W) :
  (i + n = Z.to_nat max_retries)%nat →
  let run := attempts redis_client max_retries delay (Z.of_nat <$> seq i n) w in
  (n ≠ 0%nat → ∃ o, last run.2 = Some (EvPing o))
  ∧ (∀ e, run.1.1 = Raise e →
          last (pings run.2) = Some (Raise e)
          ∧ issubclass (exc_cls e) ConnectionError = false)
  ∧ (∀ j e, pings run.2 !! j = Some (Raise e) →
            issubclass (exc_cls e) ConnectionError = false →
            S j = length (pings run.2) ∧ run.1.1 = Raise e).
Proof.
  revert i w. induction n as [|n IH]; intros i w Hin.
  - cbn. split; [done|]. split; [intros; discriminate|]. intros j e Hj. done.
  - cbn [seq fmap list_fmap attempts].
    destruct (execute Ping redis_client w) as [o w1].
    specialize (IH (S i) w1 ltac:(lia)). cbn zeta in IH.
    change (list_fmap nat Z Z.of_nat (seq (S i) n)) with (Z.of_nat <$> seq (S i) n).
    destruct (attempts redis_client max_retries delay (Z.of_nat <$> seq (S i) n) w1)
      as [[r' w2] evs] eqn:Hrec.
    cbn [fst snd] in IH. destruct IH as (Hlast & Hraise & Hhard).
    destruct o as [v|e].
    + destruct (truthy v) eqn:Hv; cbn [fst snd].
      * split; [intros _; by eexists|]. split; [intros; discriminate|].
        intros [|j] e Hj; [discriminate Hj|]. discriminate Hj.
      * change (EvPing (Ok v) :: evs)
          with (EvPing (Ok v) :: after_ping max_retries delay (Z.of_nat i) (Ok v) ++ evs)%list.
        rewrite ProbeFacts.pings_step. cbn [after_ping app].
        split; [|split].
        -- intros _. destruct n as [|n].
           ++ cbn in Hrec. injection Hrec as <- <- <-. by eexists.
           ++ destruct (Hlast ltac:(done)) as [o Ho]. exists o.
              rewrite last_cons. by rewrite Ho.
        -- intros e Hr. destruct (Hraise e Hr) as [Hl Hc]. split; [|exact Hc].
           rewrite last_cons. by rewrite Hl.
        -- intros [|j] e Hj Hc; [discriminate Hj|].
           destruct (Hhard j e Hj Hc) as [Hl Hr]. cbn [length]. by rewrite Hl.
    + destruct (issubclass (exc_cls e) ConnectionError) eqn:Hcls; cbn [fst snd].
      * replace (on_connection_error max_retries delay (Z.of_nat i) e)
          with (after_ping max_retries delay (Z.of_nat i) (Raise e))
          by (unfold after_ping; by rewrite Hcls).
        rewrite ProbeFacts.pings_step. split; [|split].
        -- intros _. destruct n as [|n].
           ++ cbn in Hrec. injection Hrec as <- <- <-.
              unfold after_ping, on_connection_error. rewrite Hcls.
              replace (Z.of_nat i <? max_retries - 1) with false
                by (symmetry; apply Z.ltb_ge; lia).
              by eexists.
           ++ destruct (Hlast ltac:(done)) as [o Ho]. exists o.
              destruct evs as [|ev evs]; [discriminate Ho|].
              change (EvPing (Raise e) :: ?l ++ ev :: evs)%list
                with ((EvPing (Raise e) :: l) ++ ev :: evs)%list.
              by rewrite last_app_cons.
        -- intros e' Hr. destruct (Hraise e' Hr) as [Hl Hc]. split; [|exact Hc].
           rewrite last_cons. by rewrite Hl.
        -- intros [|j] e' Hj Hc.
           ++ injection Hj as <-. congruence.
           ++ destruct (Hhard j e' Hj Hc) as [Hl Hr]. cbn [length]. by rewrite Hl.
      * split; [intros _; by eexists|]. split.
        -- intros e' [= <-]. done.
        -- intros [|j] e' Hj Hc; [|discriminate Hj].
           injection Hj as <-. done.
Qed.

Lemma pings_last (evs : list event) (o : res pyval) :
  last evs = Some (EvPing o) → last (pings evs) = Some o.
Proof.
  intros Hl. apply last_Some in Hl as [pre ->].
  rewrite ProbeFacts.pings_app. cbn. by rewrite last_snoc.
Qed.

Lemma sum_of_constant (d : Z) (A : Type) (xs : list A) :
  foldr Z.add 0 ((fun _ => d) <$> xs) = d * Z.of_nat (length xs).
Proof.
  induction xs as [|x xs IH]; cbn [fmap list_fmap foldr length]; [lia|].
  change (list_fmap A Z (fun _ => d) xs) with ((fun _ => d) <$> xs). rewrite IH. lia.
Qed.

Lemma attempts_result (n i : nat) (w : W) :
  let run := attempts redis_client max_retries delay (Z.of_nat <$> seq i n) w in
  run.1.1 = Ok (VBool true) ∨ run.1.1 = Ok (VBool false) ∨ ∃ e, run.1.1 = Raise e.
Proof.
  revert i w. induction n as [|n IH]; intros i w; [by right; left|].
  cbn [seq fmap list_fmap attempts].
  destruct (execute Ping redis_client w) as [o w1].
  specialize (IH (S i) w1). cbn zeta in IH.
  change (list_fmap nat Z Z.of_nat (seq (S i) n)) with (Z.of_nat <$> seq (S i) n).
  destruct (attempts redis_client max_retries delay (Z.of_nat <$> seq (S i) n) w1)
    as [[r' w2] evs].
  destruct o as [v|e].
  - destruct (truthy v); [by left|exact IH].
  - destruct (issubclass (exc_cls e) ConnectionError); [exact IH|].
    right; right. by eexists.
Qed.


(** X18. With a bound of zero or less, [wait_for_redis] gives up at once:
    it returns [False] without a ping, a line printed or a sleep, and the
    store is not contacted. *)
Theorem wait_for_redis_without_attempts (w : W) :
  max_retries ≤ 0 →
  wait_for_redis redis_client max_retries delay w = (Ok (VBool false), w, []).
Proof.
  intros Hmr. unfold wait_for_redis, range.
  replace (Z.to_nat max_retries) with 0%nat by lia. reflexivity.
Qed.



End LoopMore.

Lemma wait_for_redis_without_attempts_witness :
  wait_for_redis probe_client 0 2 [Ok (VBool true)] = (Ok (VBool false), [Ok (VBool true)], []).
Proof.
  apply (wait_for_redis_without_attempts probe_client 0 2 [Ok (VBool true)]). lia.
Defined.




Lemma attempts_reach_success (r : Redis) (mr d : Z)
    (fails : list (res pyval)) (o : res pyval) (rest : list (res pyval)) (n i : nat) :
  Forall (fun x => retried x = true) fails →
  succeeded o = true →
  (length fails < n)%nat →
  let run := attempts r mr d (Z.of_nat <$> seq i n) (fails ++ o :: rest)%list in
  run.1.1 = Ok (VBool true) ∧ run.1.2 = rest ∧ pings run.2 = (fails ++ [o])%list.
Proof.
  intros Hfails Ho. revert n i.
  induction Hfails as [|x fails Hx Hfails IH]; intros n i Hn.
  - destruct n as [|n]; [cbn in Hn; lia|].
    cbn [app seq fmap list_fmap attempts execute scripted].
    destruct o as [v|e]; [|discriminate Ho]. cbn in Ho. rewrite Ho. done.
  - destruct n as [|n]; [cbn in Hn; lia|].
    cbn [length] in Hn. specialize (IH n (S i) ltac:(lia)). cbn zeta in IH.
    cbn [app seq fmap list_fmap attempts execute scripted].
    change (list_fmap nat Z Z.of_nat (seq (S i) n)) with (Z.of_nat <$> seq (S i) n).
    destruct (attempts r mr d (Z.of_nat <$> seq (S i) n) (fails ++ o :: rest)%list)
      as [[r' w2] evs].
    cbn [fst snd] in IH. destruct IH as (Hr & Hw & Hp).
    destruct x as [v|e]; cbn in Hx.
    + apply negb_true_iff in Hx. rewrite Hx. cbn [fst snd].
      split; [exact Hr|]. split; [exact Hw|]. cbn. by rewrite <- Hp.
    + rewrite Hx. cbn [fst snd]. split; [exact Hr|]. split; [exact Hw|].
      replace (on_connection_error mr d (Z.of_nat i) e)
        with (after_ping mr d (Z.of_nat i) (Raise e))
        by (unfold after_ping; by rewrite Hx).
      rewrite ProbeFacts.pings_step. by rewrite Hp.
Qed.



End ProbeMore.

(** * Properties of the probe script's JSON phase *)

Module ScriptMore.

Lemma issubclass_Exception (c : exc_class) : issubclass c Exception = true.
Proof. by destruct c. Qed.

Section Phase.

Context {W : Type} `{RedisLib W}.

Variable py_str : pyval → string.

Implicit Types (r : Redis) (w : W) (out : list string).

(** X22. [test_redisjson] never raises: whatever the library does, it
    returns [True] or [False]. *)
Theorem test_redisjson_never_raises r w out :
  (test_redisjson py_str r (w, out)).1 = Ok (VBool true)
  ∨ (test_redisjson py_str r (w, out)).1 = Ok (VBool false).
Proof.
  unfold test_redisjson, except_Exception, test_redisjson_try, and_then, run, say, pure.
  cbn [fst snd].
  repeat match goal with
         | |- context [execute ?c r ?x] =>
             destruct (execute c r x) as [[?|?] ?]; cbn [fst snd];
             rewrite ?issubclass_Exception
         end; auto.
Qed.

(** X23. When the write or one of the three reads raises, the phase stops
    there: [test_redisjson] returns [False], prints the one failure line
    with the error's message, and leaves the store as the failing command
    left it. The commands after it, the cleanup [delete] among them, are
    not sent, so a key already written stays behind. *)
Theorem test_redisjson_stops_at_first_error r w out e w' :
  run_all r json_commands w = (Raise e, w') →
  test_redisjson py_str r (w, out)
  = (Ok (VBool false), (w', (out ++ ["❌ RedisJSON test failed: " +:+ exc_msg e])%list)).
Proof.
  unfold json_commands, test_redisjson, except_Exception, test_redisjson_try,
    and_then, run, say, pure.
  cbn [run_all fst snd].
  repeat match goal with
         | |- context [execute ?c r ?x] =>
             destruct (execute c r x) as [[?|?] ?]; cbn [fst snd];
             rewrite ?issubclass_Exception
         end;
    intros Hrun; try discriminate Hrun; by injection Hrun as <- <-.
Qed.

End Phase.

Section OnAServingStore.

Context {W : Type} `{StoreContract W}.

Variable py_str : pyval → string.

(** X24. On a serving store the write and the three reads of
    [test_redisjson] succeed and the values read at the two paths come
    back wrapped in a list: the phase prints the age as the rendering of
    [[30]] and the interests as that of a one-element list holding the
    list of interests.  If the cleanup [delete] then succeeds, the phase
    returns [True]. *)
Theorem test_redisjson_prints_wrapped_values (r : Redis) (w : W) (out : list string) :
  serving w = true →
  ∃ w1, execute (JsonSet json_key "$" create_sample_user) r w = (Ok (VBool true), w1)
    ∧ ∀ v w2, execute (Delete [json_key]) r w1 = (Ok v, w2) →
        test_redisjson py_str r (w, out)
        = (Ok (VBool true),
           (w2, (out ++ ["✅ RedisJSON test successful - stored and retrieved JSON data";
                         "Retrieved age: " +:+ py_str (VList [VInt 30]);
                         "Retrieved interests: "
                         +:+ py_str (VList [VList [VStr "Redis"; VStr "Python"; VStr "AI"]])])%list)).
Proof.
  intros Hup.
  destruct (json_set_root r w json_key create_sample_user Hup) as (w1 & Hset & Hup1 & Hdoc).
  exists w1. split; [exact Hset|]. intros v w2 Hdel.
  pose proof (json_get_document r w1 json_key _ Hup1 Hdoc) as Hget.
  pose proof (json_get_path r w1 json_key _ "$.profile.age" [VInt 30] Hup1 Hdoc eq_refl)
    as Hage.
  pose proof (json_get_path r w1 json_key _ "$.profile.interests"
                [VList [VStr "Redis"; VStr "Python"; VStr "AI"]] Hup1 Hdoc eq_refl)
    as Hints.
  unfold test_redisjson, except_Exception, test_redisjson_try, and_then, run, say, pure.
  cbn [fst snd]. rewrite Hset. cbn [fst snd]. rewrite Hget. cbn [fst snd].
  rewrite Hage. cbn [fst snd]. rewrite Hints. cbn [fst snd]. rewrite Hdel. cbn [fst snd].
  by rewrite <- !(base.assoc app).
Qed.

End OnAServingStore.

Lemma test_redisjson_stops_at_first_error_witness :
  test_redisjson show_value probe_client
    ([Ok (VBool true); Raise (mk_exc TimeoutError "Timeout reading from socket");
      Ok (VInt 1)], [])
  = (Ok (VBool false), ([Ok (VInt 1)], ["❌ RedisJSON test failed: Timeout reading from socket"])).
Proof.
  exact (test_redisjson_stops_at_first_error show_value probe_client
           [Ok (VBool true); Raise (mk_exc TimeoutError "Timeout reading from socket");
            Ok (VInt 1)] [] (mk_exc TimeoutError "Timeout reading from socket")
           [Ok (VInt 1)] eq_refl).
Defined.

Lemma test_redisjson_prints_wrapped_values_witness :
  test_redisjson show_value probe_client (mem_empty, [])
  = (Ok (VBool true),
     (mem_empty,
      ["✅ RedisJSON test successful - stored and retrieved JSON data";
       "Retrieved age: [30]";
       "Retrieved interests: <value>"])).
Proof.
  destruct (test_redisjson_prints_wrapped_values (W:=mem) show_value probe_client
              mem_empty []) as (w1 & Hset & Hrun); [reflexivity|].
  cbn in Hset. injection Hset as <-.
  apply (Hrun (VInt 1) mem_empty). reflexivity.
Defined.

End ScriptMore.
